(** * PII-Final: document lifecycle and its on-chain audit trail

    A shallow embedding of
    - the [AuditTrail] Solidity contract (creation record and access history
      per file hash),
    - [backend/services/blockchainService.js] (the ethers client of the
      contract),
    - [backend/models/Document.js] (the mongoose schema and its TTL index),
    - [backend/controllers/documentController.js] and the process controller
      (upload, delete, detect, save-and-log, verify, access logs),
    together with the properties the specification states about them. *)

From Stdlib Require Import ZArith Lia.
From stdpp Require Import gmap strings list fin_maps relations sorting.

Local Open Scope string_scope.
Local Open Scope list_scope.
Local Open Scope Z_scope.

(** An account address, by its 160-bit numeric value. *)
Definition address := N.

(** ** The AuditTrail contract *)

Module AuditTrail.

Record DocumentLog := mkDocumentLog {
  fileHash : string;
  user : address;
  timestamp : Z
}.

Record AccessLog := mkAccessLog {
  accessor : address;
  access_timestamp : Z
}.

(** Contract storage: [owner] and the two public mappings. *)
Record storage := mkStorage {
  owner : address;
  documentRecords : gmap string DocumentLog;
  accessHistory : gmap string (list AccessLog)
}.

Inductive event :=
| DocumentCreated (fileHash : string) (user : address) (timestamp : Z)
| DocumentAccessed (fileHash : string) (accessor : address) (timestamp : Z).

(** What a transaction sees of its environment: [msg.sender] and
    [block.timestamp]. *)
Record context := mkContext {
  msg_sender : address;
  block_timestamp : Z
}.

(** A call either returns or reverts with the [require] message; a revert
    leaves the storage as it was. *)
Inductive result (A : Type) :=
| Ok (a : A)
| Revert (reason : string).
Arguments Ok {A} a.
Arguments Revert {A} reason.

(** A Solidity mapping reads as the zero value at a key never written. *)
Definition zeroDocumentLog : DocumentLog :=
  {| fileHash := ""; user := 0%N; timestamp := 0 |}.

Definition documentRecords_at (s : storage) (h : string) : DocumentLog :=
  default zeroDocumentLog (documentRecords s !! h).

Definition accessHistory_at (s : storage) (h : string) : list AccessLog :=
  default [] (accessHistory s !! h).

Definition constructor (ctx : context) : storage :=
  {| owner := msg_sender ctx; documentRecords := ∅; accessHistory := ∅ |}.

Definition onlyOwner {A} (s : storage) (ctx : context) (body : result A)
  : result A :=
  if decide (msg_sender ctx = owner s) then body
  else Revert "AuditTrail: Caller is not the owner".

Definition logNewDocument (s : storage) (ctx : context)
    (_fileHash : string) (_user : address) : result (storage * list event) :=
  onlyOwner s ctx
    (if decide (timestamp (documentRecords_at s _fileHash) = 0) then
       Ok ({| owner := owner s;
              documentRecords :=
                <[_fileHash := {| fileHash := _fileHash;
                                  user := _user;
                                  timestamp := block_timestamp ctx |}]>
                  (documentRecords s);
              accessHistory := accessHistory s |},
           [DocumentCreated _fileHash _user (block_timestamp ctx)])
     else Revert "AuditTrail: Document hash already exists").

Definition logAccess (s : storage) (ctx : context)
    (_fileHash : string) (_accessor : address) : result (storage * list event) :=
  onlyOwner s ctx
    (if decide (timestamp (documentRecords_at s _fileHash) ≠ 0) then
       Ok ({| owner := owner s;
              documentRecords := documentRecords s;
              accessHistory :=
                <[_fileHash := accessHistory_at s _fileHash ++
                               [{| accessor := _accessor;
                                   access_timestamp := block_timestamp ctx |}]]>
                  (accessHistory s) |},
           [DocumentAccessed _fileHash _accessor (block_timestamp ctx)])
     else Revert "AuditTrail: Document does not exist").

Definition getDocumentRecord (s : storage) (_fileHash : string) : DocumentLog :=
  documentRecords_at s _fileHash.

Definition getAccessHistory (s : storage) (_fileHash : string) : list AccessLog :=
  accessHistory_at s _fileHash.

(** The two state-changing entry points, as transactions. *)
Inductive call :=
| CallLogNewDocument (_fileHash : string) (_user : address)
| CallLogAccess (_fileHash : string) (_accessor : address).

Definition exec (s : storage) (ctx : context) (c : call)
  : result (storage * list event) :=
  match c with
  | CallLogNewDocument h u => logNewDocument s ctx h u
  | CallLogAccess h a => logAccess s ctx h a
  end.

(** A reverted transaction changes nothing. *)
Definition apply_tx (s : storage) (tx : context * call) : storage :=
  match exec s tx.1 tx.2 with
  | Ok (s', _) => s'
  | Revert _ => s
  end.

Definition run (s : storage) (txs : list (context * call)) : storage :=
  foldl apply_tx s txs.

(** [tx] is a [logAccess] for [h] that goes through in [s]. *)
Definition access_succeeds (h : string) (s : storage) (tx : context * call)
  : bool :=
  match tx.2, exec s tx.1 tx.2 with
  | CallLogAccess h' _, Ok _ => bool_decide (h' = h)
  | _, _ => false
  end.

(** Number of successful [logAccess] calls for [h] while running [txs]. *)
Fixpoint successful_accesses (h : string) (s : storage)
    (txs : list (context * call)) : nat :=
  match txs with
  | [] => 0%nat
  | tx :: rest =>
      ((if access_succeeds h s tx then 1 else 0) +
       successful_accesses h (apply_tx s tx) rest)%nat
  end.

End AuditTrail.

(** ** The JavaScript side: store, environment and exceptions *)

Definition ObjectId := N.

(** [backend/models/Document.js]: one stored document.  A path that is
    unset ([undefined]) is [None]. *)
Module Model.

Record AccessLogEntry := mkAccessLogEntry {
  log_user : ObjectId;
  log_timestamp : Z;
  log_transactionId : option string
}.

Record Document := mkDocument {
  filename : string;
  originalFile : list Byte.byte;
  originalFileHash : string;
  user : ObjectId;
  detectedPii : list string;
  isSaved : bool;
  blockchainTransactionId : option string;
  expireAt : option Z;
  accessLogs : list AccessLogEntry;
  createdAt : Z;
  updatedAt : Z
}.

(** The schema default of [expireAt]: five minutes after [Date.now()]. *)
Definition expireAt_default (now : Z) : Z := now + 5 * 60 * 1000.

(** What mongoose hands out for a stored document: when it builds the
    document from a query result, a path that is missing there takes its
    schema default, and the path counts as set by default, which a later
    [save()] writes.  Of the paths with a default only [expireAt] can be
    missing (the commit unsets it), so this is where the default, a
    function of the clock, is drawn anew. *)
Definition hydrate (now : Z) (d : Document) : Document :=
  {| filename := filename d;
     originalFile := originalFile d;
     originalFileHash := originalFileHash d;
     user := user d;
     detectedPii := detectedPii d;
     isSaved := isSaved d;
     blockchainTransactionId := blockchainTransactionId d;
     expireAt := match expireAt d with
                 | Some t => Some t
                 | None => Some (expireAt_default now)
                 end;
     accessLogs := accessLogs d;
     createdAt := createdAt d;
     updatedAt := updatedAt d |}.

(** The TTL index [{expireAt: 1}, {expireAfterSeconds: 0}]: a document is
    due once its [expireAt] date is reached; a document without the field
    is never due.  The index looks at no other field. *)
Definition ttl_due (now : Z) (d : Document) : Prop :=
  match expireAt d with
  | Some t => t + 0 <= now
  | None => False
  end.

#[global] Instance ttl_due_dec now d : Decision (ttl_due now d).
Proof. unfold ttl_due. destruct (expireAt d); apply _. Defined.

(** One pass of the database's TTL monitor at time [now]. *)
Definition expireSweep (now : Z) (coll : gmap ObjectId Document)
  : gmap ObjectId Document :=
  filter (λ kv, ¬ ttl_due now kv.2) coll.

(** The sweep as the specification words it: reap the documents with
    [committed == false] and [expiresAt <= now]. *)
Definition spec_reaped (now : Z) (d : Document) : Prop :=
  isSaved d = false ∧ ∃ t, expireAt d = Some t ∧ t <= now.

End Model.

Import Model.

(** Calls made to the ledger over the RPC channel, in order, whether they
    went through or not. *)
Inductive Rpc :=
| RpcTransaction (c : AuditTrail.call)
| RpcGetDocumentRecord (fileHash : string)
| RpcGetAccessHistory (fileHash : string).

(** Everything that outlives a request. *)
Record World := mkWorld {
  documents : gmap ObjectId Document;
  ledger : AuditTrail.storage;
  chain_events : list AuditTrail.event;
  rpc_log : list Rpc
}.

Definition set_documents (f : gmap ObjectId Document → gmap ObjectId Document)
    (w : World) : World :=
  {| documents := f (documents w); ledger := ledger w;
     chain_events := chain_events w; rpc_log := rpc_log w |}.

Definition set_ledger (s : AuditTrail.storage) (evs : list AuditTrail.event)
    (w : World) : World :=
  {| documents := documents w; ledger := s;
     chain_events := chain_events w ++ evs; rpc_log := rpc_log w |}.

Definition log_rpc (r : Rpc) (w : World) : World :=
  {| documents := documents w; ledger := ledger w;
     chain_events := chain_events w; rpc_log := rpc_log w ++ [r] |}.

(** What the outside decides during one request: the clock, the id the
    driver draws for a new document, whether the node answers, the block a
    transaction lands in and its hash, the answer of the PII service. *)
Record Env := mkEnv {
  now : Z;
  new_id : ObjectId;
  rpc_send_ok : bool;
  rpc_read_ok : bool;
  block_time : Z;
  tx_hash : string;
  pii_entities : option (list string)
}.

(** Exceptions. *)
Inductive JsError :=
| Error (message : string)
| NetworkError
| CallException (reason : string)
| RangeError (message : string)
| ValidationError (message : string)
| MongoError (message : string).

Inductive Res (A : Type) :=
| Val (a : A)
| Exn (e : JsError).
Arguments Val {A} a.
Arguments Exn {A} e.

(** A computation over the world that returns or throws; what it did before
    throwing stays done. *)
Definition M (A : Type) : Type := World → Res A * World.

Definition ret {A} (a : A) : M A := λ w, (Val a, w).
Definition throw {A} (e : JsError) : M A := λ w, (Exn e, w).
Definition bind {A B} (c : M A) (k : A → M B) : M B :=
  λ w, match c w with
       | (Val a, w') => k a w'
       | (Exn e, w') => (Exn e, w')
       end.
Definition try_catch {A} (body : M A) (handler : JsError → M A) : M A :=
  λ w, match body w with
       | (Val a, w') => (Val a, w')
       | (Exn e, w') => handler e w'
       end.

Notation "x <- c ;; k" := (bind c (λ x, k))
  (at level 100, c at next level, right associativity).

Fixpoint mapM {A B} (f : A → M B) (l : list A) : M (list B) :=
  match l with
  | [] => ret []
  | x :: rest => y <- f x ;; ys <- mapM f rest ;; ret (y :: ys)
  end.

(** ** The backend *)

Record User := mkUser {
  _id : ObjectId;
  user_address : address
}.

Record File := mkFile {
  originalname : string;
  buffer : list Byte.byte
}.

(** One entry of the history sent to the client. *)
Record HistoryEntry := mkHistoryEntry {
  entry_accessor : address;
  entry_timestamp : string
}.

(** The JSON bodies the handlers send. *)
Inductive Body :=
| UploadBody (id : ObjectId) (filename : string) (createdAt : Z)
| MessageBody (message : string)
| DetectBody (entities : list string)
| SaveBody (message : string) (transactionId : string)
| VerifyBody (integrity : bool) (message : string)
    (onChainHash : string) (currentHash : string)
| LogsBody (message : string) (history : list HistoryEntry).

(** How a request ends: a response was sent, or the handler threw and the
    error middleware gets the error with [res.statusCode] as the handler
    left it (200 when it set none). *)
Inductive Outcome :=
| Responded (statusCode : Z) (body : Body)
| Failed (statusCode : Z) (error : JsError).

Section Backend.

(** The address of the wallet built from [CONTRACT_OWNER_PRIVATE_KEY]. *)
Variable wallet_address : address.
(** [crypto.createHash('sha256').update(b).digest('hex')]. *)
Variable sha256_hex : list Byte.byte → string.
(** The ISO-8601 text of a time value in range. *)
Variable iso_string : Z → string.

(** *** ethers *)

(** [await auditTrailContract.f(...)] then [await tx.wait()]: the
    transaction is signed by the wallet; it fails when the node does not
    answer or the contract reverts.  The two awaits are taken as one:
    [rpc_send_ok] says that both resolve, and a transaction that is mined
    while its confirmation is lost has no place here. *)
Definition send_and_wait (env : Env) (c : AuditTrail.call) : M string :=
  λ w,
    let w1 := log_rpc (RpcTransaction c) w in
    if rpc_send_ok env then
      match AuditTrail.exec (ledger w1)
              {| AuditTrail.msg_sender := wallet_address;
                 AuditTrail.block_timestamp := block_time env |} c with
      | AuditTrail.Ok (s', evs) => (Val (tx_hash env), set_ledger s' evs w1)
      | AuditTrail.Revert reason => (Exn (CallException reason), w1)
      end
    else (Exn NetworkError, w1).

Definition call_getDocumentRecord (env : Env) (fileHash : string)
  : M AuditTrail.DocumentLog :=
  λ w,
    let w1 := log_rpc (RpcGetDocumentRecord fileHash) w in
    if rpc_read_ok env
    then (Val (AuditTrail.getDocumentRecord (ledger w1) fileHash), w1)
    else (Exn NetworkError, w1).

Definition call_getAccessHistory (env : Env) (fileHash : string)
  : M (list AuditTrail.AccessLog) :=
  λ w,
    let w1 := log_rpc (RpcGetAccessHistory fileHash) w in
    if rpc_read_ok env
    then (Val (AuditTrail.getAccessHistory (ledger w1) fileHash), w1)
    else (Exn NetworkError, w1).

(** [new Date(ms).toISOString()]: a time value beyond 8.64e15 ms is an
    invalid date and [toISOString] throws.  [Number(t) * 1000] is exact for
    every [t] whose product is in that range. *)
Definition Date_toISOString (ms : Z) : M string :=
  if decide (Z.abs ms <= 8640000000000000) then ret (iso_string ms)
  else throw (RangeError "Invalid time value").

(** *** services/blockchainService.js

    Console output is left out. *)

Definition logDocumentCreation (env : Env) (fileHash : string)
    (userAddress : address) : M string :=
  try_catch
    (send_and_wait env (AuditTrail.CallLogNewDocument fileHash wallet_address))
    (λ error, throw (Error "Blockchain transaction failed.")).

Definition logDocumentAccess (env : Env) (fileHash : string)
    (accessorAddress : address) : M string :=
  try_catch
    (send_and_wait env (AuditTrail.CallLogAccess fileHash wallet_address))
    (λ error, throw (Error "Blockchain transaction failed.")).

Definition verifyDocumentIntegrity (env : Env) (fileHash : string) : M bool :=
  try_catch
    (documentRecord <- call_getDocumentRecord env fileHash ;;
     let onChainHash := AuditTrail.fileHash documentRecord in
     ret (bool_decide (onChainHash = fileHash)))
    (λ error, ret false).

Definition getDocumentAccessHistory (env : Env) (fileHash : string)
  : M (list HistoryEntry) :=
  try_catch
    (history <- call_getAccessHistory env fileHash ;;
     mapM (λ log,
             timestamp <- Date_toISOString
                            (AuditTrail.access_timestamp log * 1000) ;;
             ret {| entry_accessor := AuditTrail.accessor log;
                    entry_timestamp := timestamp |})
          history)
    (λ error, ret []).

(** *** mongoose *)

(** The stored document a query [{ _id: id, user: uid }] matches. *)
Definition stored (id uid : ObjectId) (w : World) : option Document :=
  match documents w !! id with
  | Some d => if decide (user d = uid) then Some d else None
  | None => None
  end.

(** [Document.findOne({ _id: id, user: uid })]: the match, hydrated. *)
Definition findOne (env : Env) (id uid : ObjectId) (w : World)
  : option Document :=
  hydrate (now env) <$> stored id uid w.

(** The required paths that fail validation: a required string or buffer
    that is empty does not pass. *)
Definition required_failures (filename : string)
    (originalFile : list Byte.byte) (originalFileHash : string)
    : list string :=
  (if decide (filename = "") then ["filename"] else []) ++
  (if decide (originalFile = []) then ["originalFile"] else []) ++
  (if decide (originalFileHash = "") then ["originalFileHash"] else []).

(** The message of mongoose's validation error: the model name, then for
    each failing path its name and the message of the required rule. *)
Definition validation_message (paths : list string) : string :=
  String.append "Document validation failed: "
    (String.concat ", "
       (map (λ path,
               String.append path
                 (String.append ": Path `"
                    (String.append path "` is required.")))
            paths)).

(** [Document.create({filename, originalFile, originalFileHash, user})]:
    the other paths take their schema defaults. *)
Definition Document_create (env : Env) (filename : string)
    (originalFile : list Byte.byte) (originalFileHash : string)
    (user : ObjectId) : M (ObjectId * Document) :=
  λ w,
    let d := {| filename := filename;
                originalFile := originalFile;
                originalFileHash := originalFileHash;
                user := user;
                detectedPii := [];
                isSaved := false;
                blockchainTransactionId := None;
                expireAt := Some (expireAt_default (now env));
                accessLogs := [];
                createdAt := now env;
                updatedAt := now env |} in
    if decide (filename = "" ∨ originalFile = [] ∨ originalFileHash = "") then
      (Exn (ValidationError
              (validation_message
                 (required_failures filename originalFile originalFileHash))),
       w)
    else
      match documents w !! new_id env with
      | Some _ => (Exn (MongoError "E11000 duplicate key error"), w)
      | None => (Val (new_id env, d), set_documents (insert (new_id env) d) w)
      end.

(** [document.save()] of a loaded document writes the paths that were
    assigned and the paths that took a default at loading, and unsets a
    path assigned [undefined]; the paths loaded and left alone are in [d]
    as they are stored.  So the stored document becomes [d]; [updatedAt]
    moves to the time of the save when [modified], that is when some path
    was assigned a value other than the one loaded. *)
Definition Document_save (env : Env) (id : ObjectId) (d : Document)
    (modified : bool) (w : World) : World :=
  set_documents
    (insert id {| filename := filename d;
                  originalFile := originalFile d;
                  originalFileHash := originalFileHash d;
                  user := user d;
                  detectedPii := detectedPii d;
                  isSaved := isSaved d;
                  blockchainTransactionId := blockchainTransactionId d;
                  expireAt := expireAt d;
                  accessLogs := accessLogs d;
                  createdAt := createdAt d;
                  updatedAt := if modified then now env else updatedAt d |})
    w.

Definition findByIdAndDelete (id : ObjectId) (w : World) : World :=
  set_documents (delete id) w.

(** *** controllers/documentController.js *)

Definition uploadDocument (env : Env) (req_user : User)
    (req_file : option File) : World → Outcome * World :=
  λ w,
    match req_file with
    | None => (Failed 400 (Error "Please select a file"), w)
    | Some file =>
        let originalFileHash := sha256_hex (buffer file) in
        match Document_create env (originalname file) (buffer file)
                originalFileHash (_id req_user) w with
        | (Val (id, document), w') =>
            (Responded 201
               (UploadBody id (filename document) (createdAt document)), w')
        | (Exn e, w') => (Failed 200 e, w')
        end
    end.

Definition deleteDocument (env : Env) (req_user : User)
    (params_id : ObjectId) : World → Outcome * World :=
  λ w,
    match findOne env params_id (_id req_user) w with
    | Some document =>
        (Responded 200 (MessageBody "Document removed successfully"),
         findByIdAndDelete params_id w)
    | None =>
        (Failed 404 (Error "Document not found or user not authorized"), w)
    end.

(** *** The process controller *)

(** The PII service answers with [data.entities], or the request to it
    fails. *)
Definition detectPii (env : Env) (req_user : User)
    (params_id : ObjectId) : World → Outcome * World :=
  λ w,
    match findOne env params_id (_id req_user) w with
    | None => (Failed 404 (Error "Document not found"), w)
    | Some document =>
        match pii_entities env with
        | None => (Failed 200 NetworkError, w)
        | Some entities =>
            let document' :=
              {| filename := filename document;
                 originalFile := originalFile document;
                 originalFileHash := originalFileHash document;
                 user := user document;
                 detectedPii := entities;
                 isSaved := isSaved document;
                 blockchainTransactionId := blockchainTransactionId document;
                 expireAt := expireAt document;
                 accessLogs := accessLogs document;
                 createdAt := createdAt document;
                 updatedAt := updatedAt document |} in
            (Responded 200 (DetectBody entities),
             Document_save env params_id document'
               (bool_decide (entities ≠ detectedPii document)) w)
        end
    end.

Definition saveAndLogDocument (env : Env) (req_user : User)
    (params_id : ObjectId) : World → Outcome * World :=
  λ w,
    match findOne env params_id (_id req_user) w with
    | None => (Failed 404 (Error "Document not found."), w)
    | Some document =>
        if isSaved document then
          (Failed 400 (Error "Document has already been saved and logged."), w)
        else
          match logDocumentCreation env (originalFileHash document)
                  (user_address req_user) w with
          | (Exn e, w') => (Failed 200 e, w')
          | (Val transactionId, w') =>
              let document' :=
                {| filename := filename document;
                   originalFile := originalFile document;
                   originalFileHash := originalFileHash document;
                   user := user document;
                   detectedPii := detectedPii document;
                   isSaved := true;
                   blockchainTransactionId := Some transactionId;
                   expireAt := None;
                   accessLogs := accessLogs document;
                   createdAt := createdAt document;
                   updatedAt := updatedAt document |} in
              (Responded 200
                 (SaveBody
                    "Original document hash logged on blockchain successfully."
                    transactionId),
               Document_save env params_id document' true w')
          end
    end.

Definition verifyDocument (env : Env) (req_user : User)
    (params_id : ObjectId) : World → Outcome * World :=
  λ w,
    match findOne env params_id (_id req_user) w with
    | None => (Failed 400 (Error "Document not found or was not saved."), w)
    | Some document =>
        if negb (isSaved document) then
          (Failed 400 (Error "Document not found or was not saved."), w)
        else
          let currentHash := sha256_hex (originalFile document) in
          if decide (currentHash ≠ originalFileHash document) then
            (Responded 200
               (VerifyBody false
                  "Verification Failed: The stored file does not match its original hash."
                  "N/A" currentHash), w)
          else
            match verifyDocumentIntegrity env (originalFileHash document) w with
            | (Exn e, w') => (Failed 200 e, w')
            | (Val isValidOnChain, w') =>
                (Responded 200
                   (VerifyBody isValidOnChain
                      (if isValidOnChain
                       then "Document integrity verified successfully against the blockchain."
                       else "Verification Failed: The hash on the blockchain does not match.")
                      (originalFileHash document) currentHash), w')
            end
    end.

Definition getAccessLogs (env : Env) (req_user : User)
    (params_id : ObjectId) : World → Outcome * World :=
  λ w,
    match findOne env params_id (_id req_user) w with
    | None => (Failed 400 (Error "Document not found or was not saved."), w)
    | Some document =>
        if negb (isSaved document) then
          (Failed 400 (Error "Document not found or was not saved."), w)
        else
          match logDocumentAccess env (originalFileHash document)
                  (user_address req_user) w with
          | (Exn e, w') => (Failed 200 e, w')
          | (Val txId, w') =>
              match getDocumentAccessHistory env
                      (originalFileHash document) w' with
              | (Exn e, w'') => (Failed 200 e, w'')
              | (Val history, w'') =>
                  (Responded 200
                     (LogsBody (String.append "Access logged with tx: " txId)
                        history), w'')
              end
          end
    end.

(** *** The system as a transition system *)

(** The requests that write; listing, download and redaction only read. *)
Inductive Request :=
| Upload (req_user : User) (req_file : option File)
| Delete (req_user : User) (params_id : ObjectId)
| Detect (req_user : User) (params_id : ObjectId)
| Save (req_user : User) (params_id : ObjectId)
| Verify (req_user : User) (params_id : ObjectId)
| Logs (req_user : User) (params_id : ObjectId).

Definition handle (env : Env) (r : Request) : World → Outcome * World :=
  match r with
  | Upload u f => uploadDocument env u f
  | Delete u id => deleteDocument env u id
  | Detect u id => detectPii env u id
  | Save u id => saveAndLogDocument env u id
  | Verify u id => verifyDocument env u id
  | Logs u id => getAccessLogs env u id
  end.

(** Anyone may also transact with the contract directly. *)
Definition foreign_tx (tx : AuditTrail.context * AuditTrail.call)
    (w : World) : World :=
  match AuditTrail.exec (ledger w) tx.1 tx.2 with
  | AuditTrail.Ok (s', evs) => set_ledger s' evs w
  | AuditTrail.Revert _ => w
  end.

(** What can happen next: a request is served, the TTL monitor runs, or
    somebody else's transaction is mined. *)
Inductive Label :=
| LRequest (env : Env) (r : Request)
| LSweep (t : Z)
| LForeign (tx : AuditTrail.context * AuditTrail.call).

Definition next (l : Label) (w : World) : World :=
  match l with
  | LRequest env r => (handle env r w).2
  | LSweep t => set_documents (expireSweep t) w
  | LForeign tx => foreign_tx tx w
  end.

Definition step (w w' : World) : Prop := ∃ l, w' = next l w.

(** The collection starts empty; the contract may be in any state. *)
Definition initial (w : World) : Prop := documents w = ∅.

Definition reachable (w : World) : Prop := ∃ w0, initial w0 ∧ rtc step w0 w.


(** The invariant of section 3 on one document. *)
Definition expiry_invariant (d : Document) : Prop :=
  (isSaved d = true → expireAt d = None) ∧
  (isSaved d = false → expireAt d ≠ None).


(** The creation write for [fileHash] as the service sends it. *)
Definition creation_write (env : Env) (fileHash : string) (w : World)
  : AuditTrail.result (AuditTrail.storage * list AuditTrail.event) :=
  AuditTrail.logNewDocument (ledger w)
    {| AuditTrail.msg_sender := wallet_address;
       AuditTrail.block_timestamp := block_time env |}
    fileHash wallet_address.

(** The write is confirmed when the node answers and the contract accepts
    it; otherwise it fails. *)
Definition ledger_write_confirmed (env : Env) (fileHash : string)
    (w : World) : bool :=
  rpc_send_ok env &&
  match creation_write env fileHash w with
  | AuditTrail.Ok _ => true
  | AuditTrail.Revert _ => false
  end.

(** The document a confirmed commit stores. *)
Definition committed (env : Env) (d : Document) : Document :=
  {| filename := filename d;
     originalFile := originalFile d;
     originalFileHash := originalFileHash d;
     user := user d;
     detectedPii := detectedPii d;
     isSaved := true;
     blockchainTransactionId := Some (tx_hash env);
     expireAt := None;
     accessLogs := accessLogs d;
     createdAt := createdAt d;
     updatedAt := now env |}.

(** The same world over another ledger. *)
Definition with_ledger (s : AuditTrail.storage) (w : World) : World :=
  {| documents := documents w; ledger := s;
     chain_events := chain_events w; rpc_log := rpc_log w |}.

(** The history entry the service makes of an on-chain access record. *)
Definition to_entry (log : AuditTrail.AccessLog) : HistoryEntry :=
  {| entry_accessor := AuditTrail.accessor log;
     entry_timestamp := iso_string (AuditTrail.access_timestamp log * 1000) |}.

Definition in_date_range (log : AuditTrail.AccessLog) : bool :=
  bool_decide (Z.abs (AuditTrail.access_timestamp log * 1000)
               <= 8640000000000000).

End Backend.

(** ** Sample data *)

Definition sample_wallet : address := 1%N.

(** A stand-in digest, enough to tell the sample files apart. *)
Definition sample_sha256 (b : list Byte.byte) : string :=
  match b with
  | [] => "e3b0c442"
  | Byte.x00 :: _ => "6e340b9c"
  | _ => "ffffffff"
  end.

Definition sample_iso (ms : Z) : string :=
  match ms with
  | 0 => "1970-01-01T00:00:00.000Z"
  | _ => "2024-01-01T00:00:00.000Z"
  end.

Definition alice : User := {| _id := 10%N; user_address := 7%N |}.

Definition sample_file : File :=
  {| originalname := "report.pdf"; buffer := [Byte.x01; Byte.x02] |}.

Definition sample_env : Env :=
  {| now := 1000; new_id := 5%N; rpc_send_ok := true; rpc_read_ok := true;
     block_time := 1700000000; tx_hash := "0xabc";
     pii_entities := Some ["NAME"] |}.

Definition offline_env : Env :=
  {| now := 2000; new_id := 6%N; rpc_send_ok := false; rpc_read_ok := false;
     block_time := 1700000100; tx_hash := "0xdef"; pii_entities := None |}.

Definition later_env : Env :=
  {| now := 3000; new_id := 7%N; rpc_send_ok := true; rpc_read_ok := true;
     block_time := 1700000200; tx_hash := "0x123";
     pii_entities := Some ["EMAIL"] |}.

Definition fresh_ledger : AuditTrail.storage :=
  AuditTrail.constructor
    {| AuditTrail.msg_sender := sample_wallet;
       AuditTrail.block_timestamp := 1600000000 |}.

Definition empty_world : World :=
  {| documents := ∅; ledger := fresh_ledger; chain_events := []; rpc_log := [] |}.

(** After Alice's upload. *)
Definition uploaded_world : World :=
  next sample_wallet sample_sha256 sample_iso
    (LRequest sample_env (Upload alice (Some sample_file))) empty_world.

(** After Alice's upload and her save request. *)
Definition saved_world : World :=
  next sample_wallet sample_sha256 sample_iso
    (LRequest sample_env (Save alice 5%N)) uploaded_world.

(** After Alice's upload, her save request, and a later PII detection on
    the saved document. *)
Definition redetected_world : World :=
  next sample_wallet sample_sha256 sample_iso
    (LRequest later_env (Detect alice 5%N)) saved_world.



(** The document Alice's upload stores. *)
Definition sample_document : Document :=
  {| filename := "report.pdf";
     originalFile := [Byte.x01; Byte.x02];
     originalFileHash := "ffffffff";
     user := 10%N;
     detectedPii := [];
     isSaved := false;
     blockchainTransactionId := None;
     expireAt := Some 301000;
     accessLogs := [];
     createdAt := 1000;
     updatedAt := 1000 |}.

(** A write to the database behind the application's back: other bytes,
    and the hash stored with them. *)
Definition overwrite (bytes : list Byte.byte) (hash : string) (d : Document)
    : Document :=
  {| filename := filename d;
     originalFile := bytes;
     originalFileHash := hash;
     user := user d;
     detectedPii := detectedPii d;
     isSaved := isSaved d;
     blockchainTransactionId := blockchainTransactionId d;
     expireAt := expireAt d;
     accessLogs := accessLogs d;
     createdAt := createdAt d;
     updatedAt := updatedAt d |}.

(** The saved document with its bytes replaced and its hash left alone. *)
Definition tampered_world : World :=
  set_documents (alter (overwrite [Byte.x00] "ffffffff") 5%N) saved_world.

(** The saved document with bytes and hash both replaced, consistently; the
    ledger still holds the record of the original hash only. *)
Definition forged_world : World :=
  set_documents (alter (overwrite [Byte.x00] "6e340b9c") 5%N) saved_world.

(** ** Further code: download, the stored forms, the redaction choice *)

(** The hash a contract call is about. *)
Definition call_hash (c : AuditTrail.call) : string :=
  match c with
  | AuditTrail.CallLogNewDocument h _ => h
  | AuditTrail.CallLogAccess h _ => h
  end.

(** The block times of a run of transactions, in order. *)
Definition block_times (txs : list (AuditTrail.context * AuditTrail.call))
    : list Z :=
  map (λ tx, AuditTrail.block_timestamp tx.1) txs.

(** [res.setHeader] refuses a value with a character outside tab, the
    printable ASCII range and the bytes from 0x80 on. *)
Definition valid_header_char (a : Ascii.ascii) : bool :=
  let n := Ascii.nat_of_ascii a in
  (n =? 9)%nat || ((32 <=? n)%nat && (n <=? 126)%nat) || (128 <=? n)%nat.

Definition valid_header_value (v : string) : bool :=
  forallb valid_header_char (String.list_ascii_of_string v).

(** The text of the error for a refused header value. *)
Definition invalid_header_message (name : string) : string :=
  let quote := String (Ascii.ascii_of_nat 34) EmptyString in
  String.append "Invalid character in header content ["
    (String.append quote (String.append name (String.append quote "]"))).

(** How a download ends: the file was sent as an attachment, or the handler
    threw. *)
Inductive FileOutcome :=
| FileSent (statusCode : Z) (contentDisposition : string)
    (body : list Byte.byte)
| FileFailed (statusCode : Z) (error : JsError).

(** [downloadOriginalFile] of controllers/documentController.js.  The
    [TypeError] of a refused header value is an [Error] here. *)
Definition downloadOriginalFile (env : Env) (req_user : User)
    (params_id : ObjectId) : World → FileOutcome * World :=
  λ w,
    match findOne env params_id (_id req_user) w with
    | None => (FileFailed 404 (Error "Document not found"), w)
    | Some document =>
        let disposition :=
          String.append "attachment; filename=" (filename document) in
        if valid_header_value disposition then
          (FileSent 200 disposition (originalFile document), w)
        else
          (FileFailed 200
             (Error (invalid_header_message "Content-Disposition")), w)
    end.

(** The document an upload stores. *)
Definition uploaded (sha256_hex : list Byte.byte → string) (env : Env)
    (req_user : User) (file : File) : Document :=
  {| filename := originalname file;
     originalFile := buffer file;
     originalFileHash := sha256_hex (buffer file);
     user := _id req_user;
     detectedPii := [];
     isSaved := false;
     blockchainTransactionId := None;
     expireAt := Some (expireAt_default (now env));
     accessLogs := [];
     createdAt := now env;
     updatedAt := now env |}.

(** The document an answered PII detection stores in place of [d]. *)
Definition detected (env : Env) (entities : list string) (d : Document)
    : Document :=
  {| filename := filename d;
     originalFile := originalFile d;
     originalFileHash := originalFileHash d;
     user := user d;
     detectedPii := entities;
     isSaved := isSaved d;
     blockchainTransactionId := blockchainTransactionId d;
     expireAt := expireAt (hydrate (now env) d);
     accessLogs := accessLogs d;
     createdAt := createdAt d;
     updatedAt := if bool_decide (entities ≠ detectedPii d)
                  then now env else updatedAt d |}.

(** [handlePiiSelectionChange] of pages/DashboardPage.jsx: the labels
    chosen for redaction, a [Set], kept in insertion order. *)
Definition handlePiiSelectionChange (piiToRedact : list string)
    (label : string) : list string :=
  if bool_decide (label ∈ piiToRedact)
  then filter (λ x, x ≠ label) piiToRedact
  else piiToRedact ++ [label].

(** The user a request comes from. *)
Definition requester (r : Request) : User :=
  match r with
  | Upload u _ | Delete u _ | Detect u _ | Save u _ | Verify u _ | Logs u _ => u
  end.

(** A file without content. *)
Definition empty_file : File := {| originalname := "empty.txt"; buffer := [] |}.

(** The sample run that ends in the reaping of the committed document. *)
Definition reaped_world : World :=
  next sample_wallet sample_sha256 sample_iso (LSweep 303000) redetected_world.

(** Bob, another user. *)
Definition bob : User := {| _id := 11%N; user_address := 8%N |}.

Definition stranger_txs : list (AuditTrail.context * AuditTrail.call) :=
  [({| AuditTrail.msg_sender := 9%N; AuditTrail.block_timestamp := 1700000600 |},
    AuditTrail.CallLogNewDocument "aaaa" 9%N);
   ({| AuditTrail.msg_sender := 9%N; AuditTrail.block_timestamp := 1700000700 |},
    AuditTrail.CallLogAccess "ffffffff" 9%N)].

Definition owner_txs : list (AuditTrail.context * AuditTrail.call) :=
  [({| AuditTrail.msg_sender := 1%N; AuditTrail.block_timestamp := 1700000000 |},
    AuditTrail.CallLogNewDocument "aaaa" 1%N);
   ({| AuditTrail.msg_sender := 1%N; AuditTrail.block_timestamp := 1700000100 |},
    AuditTrail.CallLogAccess "aaaa" 7%N);
   ({| AuditTrail.msg_sender := 1%N; AuditTrail.block_timestamp := 1700000100 |},
    AuditTrail.CallLogAccess "bbbb" 7%N);
   ({| AuditTrail.msg_sender := 1%N; AuditTrail.block_timestamp := 1700000300 |},
    AuditTrail.CallLogAccess "aaaa" 8%N)].

(** ** The contract: creation is once only, history only grows *)

Section Contract.
Import AuditTrail.

Lemma exec_keeps_record s ctx c s' evs h :
  timestamp (documentRecords_at s h) ≠ 0 →
  exec s ctx c = Ok (s', evs) →
  documentRecords_at s' h = documentRecords_at s h.
Proof.
  intros Hrec Hexec. destruct c as [h' u | h' a]; simpl in Hexec.
  - unfold logNewDocument, onlyOwner in Hexec.
    repeat case_decide; try discriminate.
    injection Hexec as <- _. unfold documentRecords_at; simpl.
    destruct (decide (h' = h)) as [-> | Hne]; [done |].
    by rewrite lookup_insert_ne.
  - unfold logAccess, onlyOwner in Hexec.
    repeat case_decide; try discriminate.
    by injection Hexec as <- _.
Qed.

Lemma apply_tx_keeps_record s tx h :
  timestamp (documentRecords_at s h) ≠ 0 →
  documentRecords_at (apply_tx s tx) h = documentRecords_at s h.
Proof.
  intros Hrec. unfold apply_tx.
  destruct (exec s tx.1 tx.2) as [[s' evs] | reason] eqn:Hexec; [| done].
  by eapply exec_keeps_record.
Qed.

Lemma run_keeps_record txs : ∀ s h,
  timestamp (documentRecords_at s h) ≠ 0 →
  documentRecords_at (run s txs) h = documentRecords_at s h.
Proof.
  induction txs as [| tx txs IH]; intros s h Hrec; [done |].
  unfold run in *; simpl. rewrite IH.
  - by apply apply_tx_keeps_record.
  - by rewrite apply_tx_keeps_record.
Qed.

Lemma logNewDocument_stores s ctx h writer s1 evs :
  logNewDocument s ctx h writer = Ok (s1, evs) →
  documentRecords_at s1 h =
    {| fileHash := h; user := writer; timestamp := block_timestamp ctx |}.
Proof.
  unfold logNewDocument, onlyOwner. intros Hcall.
  repeat case_decide; try discriminate.
  injection Hcall as <- _. unfold documentRecords_at; simpl.
  by rewrite lookup_insert_eq.
Qed.

Lemma logNewDocument_recorded s ctx h writer :
  timestamp (documentRecords_at s h) ≠ 0 →
  ∃ reason, logNewDocument s ctx h writer = Revert reason ∧
    (msg_sender ctx = owner s →
     reason = "AuditTrail: Document hash already exists").
Proof.
  intros Hrec. unfold logNewDocument, onlyOwner.
  destruct (decide (msg_sender ctx = owner s)) as [Hown | Hother].
  - destruct (decide (timestamp (documentRecords_at s h) = 0)); [done |].
    by eexists.
  - eexists. split; [done |]. intros Hown. by destruct Hother.
Qed.

(** C7: once [logNewDocument] has gone through for a hash (in a block
    whose timestamp is a positive Unix time), every later [logNewDocument]
    for that hash reverts, whatever transactions came in between, it
    changes nothing, and the creation record still reads as the first call
    wrote it. *)
Theorem logNewDocument_once s ctx h writer s1 evs :
  0 < block_timestamp ctx →
  logNewDocument s ctx h writer = Ok (s1, evs) →
  ∀ txs ctx' writer',
    let s2 := run s1 txs in
    (∃ reason, logNewDocument s2 ctx' h writer' = Revert reason ∧
       (msg_sender ctx' = owner s2 →
        reason = "AuditTrail: Document hash already exists")) ∧
    apply_tx s2 (ctx', CallLogNewDocument h writer') = s2 ∧
    getDocumentRecord (apply_tx s2 (ctx', CallLogNewDocument h writer')) h =
      {| fileHash := h; user := writer; timestamp := block_timestamp ctx |}.
Proof.
  intros Hpos Hfirst txs ctx' writer' s2.
  pose proof (logNewDocument_stores _ _ _ _ _ _ Hfirst) as Hstored.
  assert (Hrec1 : timestamp (documentRecords_at s1 h) ≠ 0)
    by (rewrite Hstored; simpl; lia).
  assert (Hsame : documentRecords_at s2 h = documentRecords_at s1 h)
    by (by apply run_keeps_record).
  assert (Hrec2 : timestamp (documentRecords_at s2 h) ≠ 0)
    by (by rewrite Hsame).
  destruct (logNewDocument_recorded s2 ctx' h writer' Hrec2)
    as (reason & Hrev & Hreason).
  assert (Hnop : apply_tx s2 (ctx', CallLogNewDocument h writer') = s2)
    by (unfold apply_tx; simpl; by rewrite Hrev).
  split; [by exists reason |]. split; [done |].
  rewrite Hnop. unfold getDocumentRecord. by rewrite Hsame.
Qed.

(** Without the positive timestamp the guard does not hold: a creation
    mined at time 0 leaves the hash looking unrecorded. *)
Remark logNewDocument_at_time_zero :
  let ctx := {| msg_sender := 1%N; block_timestamp := 0 |} in
  ∃ s1 evs s2 evs',
    logNewDocument (constructor ctx) ctx "h" 1%N = Ok (s1, evs) ∧
    logNewDocument s1 ctx "h" 2%N = Ok (s2, evs') ∧
    user (getDocumentRecord s2 "h") = 2%N.
Proof. vm_compute. eauto 10. Qed.

Lemma apply_tx_history h s tx :
  ∃ new,
    accessHistory_at (apply_tx s tx) h = accessHistory_at s h ++ new ∧
    length new = if access_succeeds h s tx then 1%nat else 0%nat.
Proof.
  unfold apply_tx, access_succeeds.
  destruct tx as [ctx [h' u | h' a]]; cbn [fst snd exec].
  - exists []. rewrite app_nil_r.
    destruct (logNewDocument s ctx h' u) as [[s' evs] |] eqn:Hcall; [| done].
    unfold logNewDocument, onlyOwner in Hcall.
    repeat case_decide; try discriminate. by injection Hcall as <- _.
  - destruct (logAccess s ctx h' a) as [[s' evs] |] eqn:Hcall.
    + unfold logAccess, onlyOwner in Hcall.
      destruct (decide (msg_sender ctx = owner s)); [| discriminate].
      destruct (decide (timestamp (documentRecords_at s h') ≠ 0));
        [| discriminate].
      injection Hcall as <- _.
      unfold accessHistory_at at 1; cbn [accessHistory].
      destruct (decide (h' = h)) as [-> | Hne].
      * rewrite lookup_insert_eq, bool_decide_eq_true_2 by done.
        simpl. eauto.
      * rewrite lookup_insert_ne, bool_decide_eq_false_2 by done.
        exists []. by rewrite app_nil_r.
    + exists []. by rewrite app_nil_r.
Qed.

(** C8: for a fixed hash and any run of transactions, the access history
    read afterwards is the history read before followed by exactly as many
    new entries as there were successful [logAccess] calls for that hash;
    so the earlier history is a prefix of the later one. *)
Theorem accessHistory_append_only h txs : ∀ s,
  ∃ new,
    getAccessHistory (run s txs) h = getAccessHistory s h ++ new ∧
    length new = successful_accesses h s txs ∧
    length (getAccessHistory (run s txs) h) =
      (length (getAccessHistory s h) + successful_accesses h s txs)%nat ∧
    getAccessHistory s h `prefix_of` getAccessHistory (run s txs) h.
Proof.
  unfold getAccessHistory.
  induction txs as [| tx txs IH]; intros s.
  - exists []. rewrite app_nil_r. simpl. repeat split; [lia | done].
  - destruct (apply_tx_history h s tx) as (new1 & Hone & Hlen1).
    destruct (IH (apply_tx s tx)) as (new2 & Hrest & Hlen2 & _ & _).
    exists (new1 ++ new2). unfold run in *; simpl.
    rewrite Hrest, Hone, <- app_assoc.
    repeat split.
    + rewrite length_app. lia.
    + rewrite !length_app. lia.
    + by eexists.
Qed.

End Contract.

(** ** The backend: what one request does to the world *)

Section Properties.

Context (wallet_address : address)
        (sha256_hex : list Byte.byte → string)
        (iso_string : Z → string).

Local Abbreviation save := (saveAndLogDocument wallet_address).
Local Abbreviation verify := (verifyDocument sha256_hex).
Local Abbreviation access_logs := (getAccessLogs wallet_address iso_string).
Local Abbreviation after := (next wallet_address sha256_hex iso_string).
Local Abbreviation reachable := (reachable wallet_address sha256_hex iso_string).

Lemma stored_lookup id uid w d :
  stored id uid w = Some d → documents w !! id = Some d ∧ user d = uid.
Proof.
  unfold stored. destruct (documents w !! id) as [d0 |]; [| done].
  case_decide; [| done]. by intros [= ->].
Qed.


Lemma logDocumentCreation_confirmed env h a w :
  ledger_write_confirmed wallet_address env h w = true →
  ∃ s' evs,
    creation_write wallet_address env h w = AuditTrail.Ok (s', evs) ∧
    logDocumentCreation wallet_address env h a w =
      (Val (tx_hash env),
       set_ledger s' evs
         (log_rpc (RpcTransaction
                     (AuditTrail.CallLogNewDocument h wallet_address)) w)).
Proof.
  unfold ledger_write_confirmed, logDocumentCreation, try_catch, send_and_wait.
  intros [Hup Hok]%andb_true_iff. rewrite Hup.
  cbn [AuditTrail.exec ledger log_rpc]. unfold creation_write in *.
  destruct (AuditTrail.logNewDocument _ _ _ _) as [[s' evs] | reason];
    [| done].
  by exists s', evs.
Qed.

Lemma logDocumentCreation_failed env h a w :
  ledger_write_confirmed wallet_address env h w = false →
  logDocumentCreation wallet_address env h a w =
    (Exn (Error "Blockchain transaction failed."),
     log_rpc (RpcTransaction
                (AuditTrail.CallLogNewDocument h wallet_address)) w).
Proof.
  unfold ledger_write_confirmed, logDocumentCreation, try_catch, send_and_wait.
  intros Hfail. destruct (rpc_send_ok env); [| done].
  cbn [AuditTrail.exec ledger log_rpc]. unfold creation_write in *.
  by destruct (AuditTrail.logNewDocument _ _ _ _) as [[s' evs] | reason].
Qed.

(** The save request, case by case, in terms of the stored document. *)
Lemma save_cases env u id w :
  match stored id (_id u) w with
  | None => save env u id w = (Failed 404 (Error "Document not found."), w)
  | Some d =>
      if isSaved d then
        save env u id w =
          (Failed 400 (Error "Document has already been saved and logged."), w)
      else if ledger_write_confirmed wallet_address env (originalFileHash d) w
      then
        ∃ s' evs,
          creation_write wallet_address env (originalFileHash d) w =
            AuditTrail.Ok (s', evs) ∧
          save env u id w =
            (Responded 200
               (SaveBody
                  "Original document hash logged on blockchain successfully."
                  (tx_hash env)),
             set_documents (insert id (committed env d))
               (set_ledger s' evs
                  (log_rpc (RpcTransaction
                              (AuditTrail.CallLogNewDocument
                                 (originalFileHash d) wallet_address)) w)))
      else
        save env u id w =
          (Failed 200 (Error "Blockchain transaction failed."),
           log_rpc (RpcTransaction
                      (AuditTrail.CallLogNewDocument
                         (originalFileHash d) wallet_address)) w)
  end.
Proof.
  unfold saveAndLogDocument, findOne.
  destruct (stored id (_id u) w) as [d |]; [| done].
  cbn [fmap option_fmap option_map hydrate isSaved originalFileHash].
  destruct (isSaved d); [done |].
  destruct (ledger_write_confirmed _ env _ w) eqn:Hledger.
  - destruct (logDocumentCreation_confirmed env (originalFileHash d)
                (user_address u) w Hledger) as (s' & evs & Hwrite & ->).
    by exists s', evs.
  - by rewrite logDocumentCreation_failed.
Qed.

Lemma logDocumentAccess_documents env h a w :
  documents (logDocumentAccess wallet_address env h a w).2 = documents w.
Proof.
  unfold logDocumentAccess, try_catch, send_and_wait.
  destruct (rpc_send_ok env); [| done].
  by destruct (AuditTrail.exec _ _ _) as [[s' evs] | reason].
Qed.

Lemma verifyDocumentIntegrity_total env h w :
  verifyDocumentIntegrity env h w =
    (Val (rpc_read_ok env &&
          bool_decide (AuditTrail.fileHash
                         (AuditTrail.getDocumentRecord (ledger w) h) = h)),
     log_rpc (RpcGetDocumentRecord h) w).
Proof.
  unfold verifyDocumentIntegrity, try_catch, bind, call_getDocumentRecord.
  by destruct (rpc_read_ok env).
Qed.

Lemma entry_of_log (log : AuditTrail.AccessLog) w :
  (timestamp <- Date_toISOString iso_string
                  (AuditTrail.access_timestamp log * 1000) ;;
   ret {| entry_accessor := AuditTrail.accessor log;
          entry_timestamp := timestamp |}) w =
    (if in_date_range log then Val (to_entry iso_string log)
     else Exn (RangeError "Invalid time value"), w).
Proof.
  unfold bind, Date_toISOString, in_date_range.
  case_decide; [rewrite bool_decide_eq_true_2 by done
               | rewrite bool_decide_eq_false_2 by done]; done.
Qed.

Lemma mapM_to_entry (l : list AuditTrail.AccessLog) w :
  mapM (λ log,
          timestamp <- Date_toISOString iso_string
                         (AuditTrail.access_timestamp log * 1000) ;;
          ret {| entry_accessor := AuditTrail.accessor log;
                 entry_timestamp := timestamp |}) l w =
    (if forallb in_date_range l then Val (map (to_entry iso_string) l)
     else Exn (RangeError "Invalid time value"), w).
Proof.
  induction l as [| log l IH]; [done |].
  cbn [mapM forallb map]. unfold bind at 1. rewrite entry_of_log.
  destruct (in_date_range log); [| done].
  unfold bind at 1. rewrite IH. by destruct (forallb in_date_range l).
Qed.

(** The history read never throws: a failed read or a timestamp that is
    no valid date gives the empty history. *)
Lemma getDocumentAccessHistory_total env h w :
  getDocumentAccessHistory iso_string env h w =
    (Val (if rpc_read_ok env &&
             forallb in_date_range (AuditTrail.getAccessHistory (ledger w) h)
          then map (to_entry iso_string)
                 (AuditTrail.getAccessHistory (ledger w) h)
          else []),
     log_rpc (RpcGetAccessHistory h) w).
Proof.
  unfold getDocumentAccessHistory, try_catch, call_getAccessHistory.
  unfold bind at 1. destruct (rpc_read_ok env); [| done].
  rewrite mapM_to_entry. cbn [ledger log_rpc andb].
  by destruct (forallb in_date_range _).
Qed.

Lemma verify_keeps_documents env u id w :
  documents (verify env u id w).2 = documents w.
Proof.
  unfold verifyDocument. destruct (findOne env id (_id u) w) as [d |]; [| done].
  destruct (isSaved d); [| done]. cbn [negb].
  case_decide; [done |]. by rewrite verifyDocumentIntegrity_total.
Qed.

Lemma access_logs_keeps_documents env u id w :
  documents (access_logs env u id w).2 = documents w.
Proof.
  unfold getAccessLogs. destruct (findOne env id (_id u) w) as [d |]; [| done].
  destruct (isSaved d); [| done]. cbn [negb].
  pose proof (logDocumentAccess_documents env (originalFileHash d)
                (user_address u) w) as Hdocs.
  destruct (logDocumentAccess _ _ _ _ w) as [[txId | e] w1]; [| done].
  by rewrite getDocumentAccessHistory_total.
Qed.

(** The documents after a step, one id at a time: a document found after
    the step was there unchanged, or was just uploaded, or went through a
    PII detection (loaded, hydrated and saved), or was just committed. *)
Lemma next_lookup l w id d' :
  documents (after l w) !! id = Some d' →
  documents w !! id = Some d'
  ∨ (∃ env u f, l = LRequest env (Upload u (Some f)) ∧
       documents w !! id = None ∧ isSaved d' = false ∧
       expireAt d' = Some (expireAt_default (now env)))
  ∨ (∃ env u d, l = LRequest env (Detect u id) ∧
       documents w !! id = Some d ∧
       isSaved d' = isSaved d ∧
       expireAt d' = expireAt (hydrate (now env) d))
  ∨ (∃ env u d, l = LRequest env (Save u id) ∧
       stored id (_id u) w = Some d ∧ isSaved d = false ∧
       ledger_write_confirmed wallet_address env (originalFileHash d) w = true ∧
       d' = committed env d).
Proof.
  destruct l as [env [u f | u id0 | u id0 | u id0 | u id0 | u id0] | t | tx];
    cbn [next handle].
  - unfold uploadDocument. destruct f as [f |]; [| by left].
    unfold Document_create. case_decide; [by left |].
    destruct (documents w !! new_id env) eqn:Hfree; [by left |].
    cbn [snd set_documents documents].
    destruct (decide (new_id env = id)) as [<- | Hne].
    + rewrite lookup_insert_eq. intros [= <-].
      right; left. by exists env, u, f.
    + rewrite lookup_insert_ne by done. by left.
  - unfold deleteDocument.
    destruct (findOne env id0 (_id u) w); [| by left].
    cbn [snd findByIdAndDelete set_documents documents].
    intros [_ Hl]%lookup_delete_Some. by left.
  - unfold detectPii, findOne.
    destruct (stored id0 (_id u) w) as [d |] eqn:Hfind; [| by left].
    cbn [fmap option_fmap option_map].
    destruct (pii_entities env); [| by left].
    cbn [snd Document_save set_documents documents].
    destruct (decide (id0 = id)) as [-> | Hne].
    + rewrite lookup_insert_eq. intros [= <-].
      apply stored_lookup in Hfind as [Hl _].
      right; right; left. by exists env, u, d.
    + rewrite lookup_insert_ne by done. by left.
  - pose proof (save_cases env u id0 w) as Hsave.
    destruct (stored id0 (_id u) w) as [d |] eqn:Hfind;
      [| rewrite Hsave; by left].
    destruct (isSaved d) eqn:Hsaved; [rewrite Hsave; by left |].
    destruct (ledger_write_confirmed _ env _ w) eqn:Hledger;
      [| rewrite Hsave; by left].
    destruct Hsave as (s' & evs & _ & ->).
    cbn [snd set_documents set_ledger log_rpc documents].
    destruct (decide (id0 = id)) as [-> | Hne].
    + rewrite lookup_insert_eq. intros [= <-].
      right; right; right. by exists env, u, d.
    + rewrite lookup_insert_ne by done. by left.
  - rewrite verify_keeps_documents. by left.
  - rewrite access_logs_keeps_documents. by left.
  - cbn [set_documents documents]. unfold expireSweep.
    intros [Hl _]%map_lookup_filter_Some. by left.
  - unfold foreign_tx.
    destruct (AuditTrail.exec _ _ _) as [[s' evs] | reason]; by left.
Qed.

(** *** Expiry *)

(** An uncommitted document always carries an [expireAt]. *)
Lemma reachable_uncommitted_expires w :
  reachable w →
  ∀ id d, documents w !! id = Some d → isSaved d = false → expireAt d ≠ None.
Proof.
  intros (w0 & Hinit & Hsteps). revert w Hsteps.
  apply (rtc_ind_r (λ w, ∀ id d, documents w !! id = Some d →
                          isSaved d = false → expireAt d ≠ None)).
  - intros id d. by rewrite Hinit.
  - intros w1 w2 _ [l ->] IH id d' Hl Hunsaved.
    apply next_lookup in Hl
      as [Hl | [(env & u & f & _ & _ & _ & He)
         | [(env & u & d & _ & _ & _ & He)
         | (env & u & d & _ & _ & _ & _ & ->)]]].
    + by eapply IH.
    + by rewrite He.
    + rewrite He. cbn [hydrate expireAt]. by destruct (expireAt d).
    + done.
Qed.

(** A step breaks the expiry invariant of a document only in one way: a
    PII detection on a committed document, which stores it with the
    [expireAt] mongoose drew at loading. *)
Lemma expiry_rearmed_only_by_detect l w id d d' :
  documents w !! id = Some d →
  expiry_invariant d →
  documents (after l w) !! id = Some d' →
  ¬ expiry_invariant d' →
  ∃ env u, l = LRequest env (Detect u id) ∧
    isSaved d' = true ∧ expireAt d' = Some (expireAt_default (now env)).
Proof.
  intros Hsome [Hsaved Hunsaved] Hl Hbroken.
  apply next_lookup in Hl
    as [Hl | [(env & u & f & _ & Hnone & _)
       | [(env & u & d0 & -> & Hl & Hs & He)
       | (env & u & d0 & _ & _ & _ & _ & ->)]]].
  - rewrite Hsome in Hl. injection Hl as ->. by destruct Hbroken.
  - by rewrite Hsome in Hnone.
  - rewrite Hsome in Hl. injection Hl as <-.
    cbn [hydrate expireAt] in He. destruct (isSaved d) eqn:Hd.
    + rewrite Hsaved in He by done. by exists env, u.
    + destruct Hbroken. unfold expiry_invariant. rewrite Hs, He.
      destruct (expireAt d); [done | by destruct Hunsaved].
  - by destruct Hbroken.
Qed.

(** And every answered PII detection on a committed document does so. *)
Lemma detect_on_committed env entities u id d w :
  stored id (_id u) w = Some d →
  isSaved d = true →
  expireAt d = None →
  pii_entities env = Some entities →
  ∃ d', documents (detectPii env u id w).2 !! id = Some d' ∧
    isSaved d' = true ∧ expireAt d' = Some (now env + 5 * 60 * 1000).
Proof.
  intros Hfind Hsaved Hnone Hpii. unfold detectPii, findOne.
  rewrite Hfind. cbn [fmap option_fmap option_map]. rewrite Hpii.
  cbn [snd Document_save set_documents documents].
  rewrite lookup_insert_eq. eexists. split; [done |].
  cbn [isSaved expireAt hydrate]. by rewrite Hnone.
Qed.

Lemma expireSweep_lookup t (coll : gmap ObjectId Document) id d :
  coll !! id = Some d →
  expireSweep t coll !! id = if decide (ttl_due t d) then None else Some d.
Proof.
  intros Hl. unfold expireSweep. case_decide as Hdue.
  - apply map_lookup_filter_None. right. intros d0 Hl0. simpl.
    rewrite Hl in Hl0. injection Hl0 as <-. tauto.
  - apply map_lookup_filter_Some. done.
Qed.

(** On a document that satisfies the expiry invariant the TTL sweep, which
    looks at [expireAt] alone, does what the specification asks of it. *)
Lemma expireSweep_under_invariant t (coll : gmap ObjectId Document) id d :
  coll !! id = Some d →
  expiry_invariant d →
  (isSaved d = true → expireSweep t coll !! id = Some d) ∧
  (expireSweep t coll !! id = None ↔ spec_reaped t d).
Proof.
  intros Hl [Hsaved Hunsaved].
  rewrite (expireSweep_lookup t _ id d Hl). unfold spec_reaped.
  destruct (decide (ttl_due t d)) as [Hdue | Hdue]; unfold ttl_due in Hdue.
  - destruct (expireAt d) as [t0 |] eqn:He; [| done].
    destruct (isSaved d) eqn:Hs; [by specialize (Hsaved eq_refl) |].
    split; [done |]. split; [intros _ | done].
    split; [done |]. exists t0. split; [done | lia].
  - split; [done |]. split; [done |].
    intros (_ & t1 & He & Hle). rewrite He in Hdue. lia.
Qed.

(** *** Commit *)

(** C3: a commit call on an existing, uncommitted document whose ledger
    creation write fails ends in an error, and leaves the stored documents,
    the ledger and its events as they were.  Conversely, if the document is
    stored differently after the call, then the write was confirmed, the
    ledger holds the creation record, and the document is the committed
    one: [isSaved] true, [expireAt] cleared, the transaction id set. *)
Theorem commit_waits_for_ledger env u id d w :
  stored id (_id u) w = Some d →
  isSaved d = false →
  (ledger_write_confirmed wallet_address env (originalFileHash d) w = false →
     (save env u id w).1 = Failed 200 (Error "Blockchain transaction failed.") ∧
     documents (save env u id w).2 = documents w ∧
     stored id (_id u) (save env u id w).2 = Some d ∧
     ledger (save env u id w).2 = ledger w ∧
     chain_events (save env u id w).2 = chain_events w) ∧
  (∀ d', documents (save env u id w).2 !! id = Some d' → d' ≠ d →
     ledger_write_confirmed wallet_address env (originalFileHash d) w = true ∧
     AuditTrail.getDocumentRecord (ledger (save env u id w).2)
         (originalFileHash d) =
       {| AuditTrail.fileHash := originalFileHash d;
          AuditTrail.user := wallet_address;
          AuditTrail.timestamp := block_time env |} ∧
     isSaved d' = true ∧ expireAt d' = None ∧
     blockchainTransactionId d' = Some (tx_hash env) ∧
     d' = committed env d).
Proof.
  intros Hfind Hunsaved. pose proof (save_cases env u id w) as Hsave.
  rewrite Hfind, Hunsaved in Hsave.
  destruct (ledger_write_confirmed _ env _ w) eqn:Hledger.
  - destruct Hsave as (s' & evs & Hwrite & ->). split; [done |].
    intros d' Hl _.
    cbn [snd set_documents set_ledger log_rpc documents ledger] in *.
    rewrite lookup_insert_eq in Hl. injection Hl as <-.
    split; [done |]. split; [| done].
    by apply (logNewDocument_stores _ _ _ _ _ _ Hwrite).
  - rewrite Hsave. cbn [fst snd]. split.
    + intros _. repeat split; try done.
    + intros d' Hl Hne. apply stored_lookup in Hfind as [Hl0 _].
      cbn [log_rpc documents] in Hl. rewrite Hl0 in Hl.
      injection Hl as <-. done.
Qed.



(** *** Access log and verification *)

(** C5, as the code has it: a successful access-log call on a committed
    document appends to the ledger history of its hash one record whose
    accessor is the service wallet, whoever the calling user is, stamped
    with the block time; the history sent back is that of the ledger after
    the append, entry by entry, or empty when the read fails or a
    timestamp is no valid date. *)
Theorem access_recorded_under_wallet env u id d w body w' :
  stored id (_id u) w = Some d →
  isSaved d = true →
  access_logs env u id w = (Responded 200 body, w') →
  let h := originalFileHash d in
  let appended :=
    {| AuditTrail.accessor := wallet_address;
       AuditTrail.access_timestamp := block_time env |} in
  AuditTrail.getAccessHistory (ledger w') h =
    AuditTrail.getAccessHistory (ledger w) h ++ [appended] ∧
  body =
    LogsBody (String.append "Access logged with tx: " (tx_hash env))
      (if rpc_read_ok env &&
          forallb in_date_range (AuditTrail.getAccessHistory (ledger w') h)
       then map (to_entry iso_string)
              (AuditTrail.getAccessHistory (ledger w') h)
       else []).
Proof.
  intros Hfind Hsaved. unfold getAccessLogs, findOne. rewrite Hfind.
  cbn [fmap option_fmap option_map hydrate isSaved originalFileHash].
  rewrite Hsaved. cbn [negb].
  unfold logDocumentAccess, try_catch, send_and_wait.
  destruct (rpc_send_ok env); [| done].
  cbn [AuditTrail.exec ledger log_rpc].
  destruct (AuditTrail.logAccess _ _ _ _) as [[s' evs] | reason] eqn:Hcall;
    [| done].
  rewrite getDocumentAccessHistory_total.
  intros [= <- <-]. cbn [ledger log_rpc set_ledger].
  assert (Hhist : AuditTrail.getAccessHistory s' (originalFileHash d) =
            AuditTrail.getAccessHistory (ledger w) (originalFileHash d) ++
            [{| AuditTrail.accessor := wallet_address;
                AuditTrail.access_timestamp := block_time env |}]).
  { unfold AuditTrail.logAccess, AuditTrail.onlyOwner in Hcall.
    repeat case_decide; try discriminate; injection Hcall as <- _;
      unfold AuditTrail.getAccessHistory, AuditTrail.accessHistory_at at 1;
      cbn [AuditTrail.accessHistory]; by rewrite lookup_insert_eq. }
  by rewrite Hhist.
Qed.

(** What [verify] answers for a committed document whose bytes match its
    stored hash: the verdict is that of the ledger read, and the
    [onChainHash] sent is the locally stored hash. *)
Lemma verify_untampered env u id d w :
  stored id (_id u) w = Some d →
  isSaved d = true →
  sha256_hex (originalFile d) = originalFileHash d →
  let ok := rpc_read_ok env &&
            bool_decide (AuditTrail.fileHash
                           (AuditTrail.getDocumentRecord (ledger w)
                              (originalFileHash d)) = originalFileHash d) in
  verify env u id w =
    (Responded 200
       (VerifyBody ok
          (if ok
           then "Document integrity verified successfully against the blockchain."
           else "Verification Failed: The hash on the blockchain does not match.")
          (originalFileHash d) (originalFileHash d)),
     log_rpc (RpcGetDocumentRecord (originalFileHash d)) w).
Proof.
  intros Hfind Hsaved Hhash. unfold verifyDocument, findOne. rewrite Hfind.
  cbn [fmap option_fmap option_map hydrate isSaved originalFileHash
       originalFile].
  rewrite Hsaved. cbn [negb].
  rewrite decide_False by (by intros []).
  by rewrite verifyDocumentIntegrity_total, Hhash.
Qed.

(** C6, as the code has it: for a committed document whose stored bytes
    hash to its stored hash, [verify] makes one read of the ledger's
    creation record for that hash and answers with the recomputed hash as
    [currentHash]; the verdict is "verified" exactly when the read
    succeeds and the ledger's stored hash equals the local one, and
    "ledger mismatch" otherwise, also when the read fails. *)
Theorem verify_verdict_of_ledger_read env u id d w :
  stored id (_id u) w = Some d →
  isSaved d = true →
  sha256_hex (originalFile d) = originalFileHash d →
  ∃ integrity onChainHash,
    verify env u id w =
      (Responded 200
         (VerifyBody integrity
            (if integrity
             then "Document integrity verified successfully against the blockchain."
             else "Verification Failed: The hash on the blockchain does not match.")
            onChainHash (sha256_hex (originalFile d))),
       log_rpc (RpcGetDocumentRecord (originalFileHash d)) w) ∧
    (integrity = true ↔
       rpc_read_ok env = true ∧
       AuditTrail.fileHash
         (AuditTrail.getDocumentRecord (ledger w) (originalFileHash d)) =
         originalFileHash d).
Proof.
  intros Hfind Hsaved Hhash.
  rewrite (verify_untampered env u id d w Hfind Hsaved Hhash). cbv zeta.
  eexists _, _. rewrite Hhash. split; [done |].
  rewrite andb_true_iff, bool_decide_eq_true. done.
Qed.

(** C9: for a committed document whose stored bytes no longer hash to the
    stored hash, [verify] answers "local tamper" with [onChainHash] "N/A"
    and the recomputed hash, makes no ledger call and changes nothing; the
    answer is the same over any two ledgers and in any two environments. *)
Theorem verify_local_tamper env env' u id d w s s' :
  stored id (_id u) w = Some d →
  isSaved d = true →
  sha256_hex (originalFile d) ≠ originalFileHash d →
  verify env u id (with_ledger s w) =
    (Responded 200
       (VerifyBody false
          "Verification Failed: The stored file does not match its original hash."
          "N/A" (sha256_hex (originalFile d))),
     with_ledger s w) ∧
  (verify env u id (with_ledger s w)).1 =
    (verify env' u id (with_ledger s' w)).1 ∧
  rpc_log (verify env u id (with_ledger s w)).2 = rpc_log w.
Proof.
  intros Hfind Hsaved Htamper.
  assert (Hv : ∀ e s0, verify e u id (with_ledger s0 w) =
            (Responded 200
               (VerifyBody false
                  "Verification Failed: The stored file does not match its original hash."
                  "N/A" (sha256_hex (originalFile d))),
             with_ledger s0 w)).
  { intros e s0. unfold verifyDocument, findOne.
    replace (stored id (_id u) (with_ledger s0 w)) with (Some d)
      by (by rewrite <- Hfind).
    cbn [fmap option_fmap option_map hydrate isSaved originalFileHash
         originalFile].
    rewrite Hsaved. cbn [negb]. by rewrite decide_True. }
  by rewrite !Hv.
Qed.

(** C10: the ledger-side check always returns a boolean and never throws.
    It returns [false] when the read fails, when the ledger's stored hash
    differs from the hash asked for, and when the hash, a non-empty
    string, has no creation record: the three cases are told apart by
    nothing in the result. *)
Theorem verifyDocumentIntegrity_never_throws env h w :
  ∃ b,
    verifyDocumentIntegrity env h w =
      (Val b, log_rpc (RpcGetDocumentRecord h) w) ∧
    (rpc_read_ok env = false → b = false) ∧
    (AuditTrail.fileHash (AuditTrail.getDocumentRecord (ledger w) h) ≠ h →
     b = false) ∧
    (h ≠ "" → AuditTrail.documentRecords (ledger w) !! h = None → b = false).
Proof.
  rewrite verifyDocumentIntegrity_total. eexists. split; [done |].
  split; [by intros -> |]. split.
  - intros Hne. rewrite bool_decide_eq_false_2 by done. apply andb_false_r.
  - intros Hne Hnone. rewrite bool_decide_eq_false_2; [apply andb_false_r |].
    unfold AuditTrail.getDocumentRecord, AuditTrail.documentRecords_at.
    rewrite Hnone. cbn. congruence.
Qed.

End Properties.

(** ** The properties at the sample data *)

(** A sample world is reached from [empty_world] by the [n] steps of its
    definition. *)
Tactic Notation "sample_steps" integer(n) :=
  exists empty_world; split; [reflexivity |];
  do n (eapply rtc_r; [| eexists; reflexivity]); apply rtc_refl.

(** C2 at the sample run: Alice uploads a document, saves it, and then asks
    for a PII detection on it.  The detection loads the committed document,
    mongoose draws the [expireAt] default anew for the missing path, and the
    save writes it: the stored document is committed and has an [expireAt],
    five minutes after the detection. *)
Theorem detect_rearms_expiry :
  reachable sample_wallet sample_sha256 sample_iso redetected_world ∧
  documents saved_world !! 5%N = Some (committed sample_env sample_document) ∧
  ∃ d, documents redetected_world !! 5%N = Some d ∧
       isSaved d = true ∧ expireAt d = Some 303000.
Proof.
  split; [sample_steps 3 |]. split; [vm_compute; reflexivity |].
  eexists. vm_compute. repeat split.
Qed.

(** C1 at the sample run: after that detection the committed document is due
    five minutes later, and the sweep removes it. *)
Theorem expireSweep_reaps_committed :
  reachable sample_wallet sample_sha256 sample_iso redetected_world ∧
  (∃ d, documents redetected_world !! 5%N = Some d ∧ isSaved d = true) ∧
  expireSweep 303000 (documents redetected_world) !! 5%N = None.
Proof.
  split; [sample_steps 3 |]. split.
  - eexists. vm_compute. repeat split.
  - vm_compute. reflexivity.
Qed.

Lemma commit_waits_for_ledger_witness :
  stored 5%N (_id alice) uploaded_world = Some sample_document ∧
  (saveAndLogDocument sample_wallet offline_env alice 5%N uploaded_world).1 =
    Failed 200 (Error "Blockchain transaction failed.") ∧
  documents
    (saveAndLogDocument sample_wallet offline_env alice 5%N uploaded_world).2 =
    documents uploaded_world.
Proof.
  assert (Hfind : stored 5%N (_id alice) uploaded_world = Some sample_document)
    by (vm_compute; reflexivity).
  split; [exact Hfind |].
  destruct (commit_waits_for_ledger sample_wallet offline_env alice 5%N
              sample_document uploaded_world Hfind eq_refl) as [Hfail _].
  destruct (Hfail eq_refl) as (Hout & Hdocs & _).
  split; [exact Hout | exact Hdocs].
Defined.

(** C5 fails as stated: Alice, whose address is 7, asks for the access log
    of her committed document; the record appended to the ledger, and the
    entry sent back, carry the service wallet's address 1. *)
Lemma access_log_not_under_accessor :
  let result :=
    getAccessLogs sample_wallet sample_iso later_env alice 5%N saved_world in
  result.1 =
    Responded 200
      (LogsBody "Access logged with tx: 0x123"
         [{| entry_accessor := sample_wallet;
             entry_timestamp := "2024-01-01T00:00:00.000Z" |}]) ∧
  AuditTrail.getAccessHistory (ledger result.2) "ffffffff" =
    [{| AuditTrail.accessor := sample_wallet;
        AuditTrail.access_timestamp := 1700000200 |}] ∧
  user_address alice ≠ sample_wallet.
Proof. vm_compute. repeat split; discriminate. Qed.

Lemma access_recorded_under_wallet_witness :
  AuditTrail.getAccessHistory
    (ledger (getAccessLogs sample_wallet sample_iso later_env alice 5%N
               saved_world).2) "ffffffff" =
    AuditTrail.getAccessHistory (ledger saved_world) "ffffffff" ++
    [{| AuditTrail.accessor := sample_wallet;
        AuditTrail.access_timestamp := 1700000200 |}].
Proof.
  assert (Hfind : stored 5%N (_id alice) saved_world =
                  Some (committed sample_env sample_document))
    by (vm_compute; reflexivity).
  assert (Hcall :
    getAccessLogs sample_wallet sample_iso later_env alice 5%N saved_world =
      (Responded 200
         (LogsBody "Access logged with tx: 0x123"
            [{| entry_accessor := sample_wallet;
                entry_timestamp := "2024-01-01T00:00:00.000Z" |}]),
       (getAccessLogs sample_wallet sample_iso later_env alice 5%N
          saved_world).2))
    by (vm_compute; reflexivity).
  exact (proj1 (access_recorded_under_wallet sample_wallet sample_iso later_env
                  alice 5%N _ saved_world _ _ Hfind eq_refl Hcall)).
Defined.


(** C6 fails as stated, in two ways.  With the node not answering, the
    ledger's stored hash equals the local hash and the verdict is still a
    ledger mismatch.  And at a forged document (bytes and stored hash
    replaced together, so that the local check passes) the ledger has no
    record under the new hash, its stored hash there being the empty
    string, yet the [onChainHash] sent is the local hash. *)
Lemma verify_mismatch_without_mismatch :
  (AuditTrail.fileHash
     (AuditTrail.getDocumentRecord (ledger saved_world) "ffffffff") = "ffffffff" ∧
   (verifyDocument sample_sha256 offline_env alice 5%N saved_world).1 =
     Responded 200
       (VerifyBody false
          "Verification Failed: The hash on the blockchain does not match."
          "ffffffff" "ffffffff")) ∧
  (AuditTrail.fileHash
     (AuditTrail.getDocumentRecord (ledger forged_world) "6e340b9c") = "" ∧
   (verifyDocument sample_sha256 sample_env alice 5%N forged_world).1 =
     Responded 200
       (VerifyBody false
          "Verification Failed: The hash on the blockchain does not match."
          "6e340b9c" "6e340b9c")).
Proof. vm_compute. repeat split. Qed.

Lemma verify_verdict_of_ledger_read_witness :
  ∃ onChainHash,
    verifyDocument sample_sha256 sample_env alice 5%N saved_world =
      (Responded 200
         (VerifyBody true
            "Document integrity verified successfully against the blockchain."
            onChainHash "ffffffff"),
       log_rpc (RpcGetDocumentRecord "ffffffff") saved_world).
Proof.
  assert (Hfind : stored 5%N (_id alice) saved_world =
                  Some (committed sample_env sample_document))
    by (vm_compute; reflexivity).
  destruct (verify_verdict_of_ledger_read sample_sha256 sample_env alice 5%N _
              saved_world Hfind eq_refl eq_refl)
    as (integrity & onChainHash & Hcall & Hverdict).
  assert (Hok : integrity = true)
    by (apply Hverdict; split; vm_compute; reflexivity).
  exists onChainHash. rewrite Hcall, Hok. reflexivity.
Defined.

Lemma logNewDocument_once_witness :
  let ctx := {| AuditTrail.msg_sender := sample_wallet;
                AuditTrail.block_timestamp := 1700000000 |} in
  let ctx' := {| AuditTrail.msg_sender := sample_wallet;
                 AuditTrail.block_timestamp := 1700000500 |} in
  let s1 := AuditTrail.apply_tx fresh_ledger
              (ctx, AuditTrail.CallLogNewDocument "ffffffff" 7%N) in
  AuditTrail.logNewDocument fresh_ledger ctx "ffffffff" 7%N =
    AuditTrail.Ok (s1, [AuditTrail.DocumentCreated "ffffffff" 7%N 1700000000]) ∧
  AuditTrail.apply_tx s1 (ctx', AuditTrail.CallLogNewDocument "ffffffff" 8%N) =
    s1.
Proof.
  intros ctx ctx' s1.
  assert (Hfirst : AuditTrail.logNewDocument fresh_ledger ctx "ffffffff" 7%N =
            AuditTrail.Ok
              (s1, [AuditTrail.DocumentCreated "ffffffff" 7%N 1700000000]))
    by (vm_compute; reflexivity).
  assert (Hpos : 0 < AuditTrail.block_timestamp ctx) by (simpl; lia).
  split; [exact Hfirst |].
  exact (proj1 (proj2 (logNewDocument_once fresh_ledger ctx "ffffffff" 7%N s1 _
                         Hpos Hfirst [] ctx' 8%N))).
Defined.

Lemma verify_local_tamper_witness :
  stored 5%N (_id alice) tampered_world =
    Some (overwrite [Byte.x00] "ffffffff" (committed sample_env sample_document)) ∧
  (verifyDocument sample_sha256 sample_env alice 5%N
     (with_ledger fresh_ledger tampered_world)).1 =
  (verifyDocument sample_sha256 offline_env alice 5%N
     (with_ledger (ledger saved_world) tampered_world)).1.
Proof.
  assert (Hfind : stored 5%N (_id alice) tampered_world =
            Some (overwrite [Byte.x00] "ffffffff"
                    (committed sample_env sample_document)))
    by (vm_compute; reflexivity).
  split; [exact Hfind |].
  refine (proj1 (proj2 (verify_local_tamper sample_sha256 sample_env offline_env
                          alice 5%N _ tampered_world fresh_ledger
                          (ledger saved_world) Hfind eq_refl _))).
  vm_compute. discriminate.
Defined.

Lemma verifyDocumentIntegrity_never_throws_witness :
  ∃ b, (verifyDocumentIntegrity sample_env "6e340b9c" saved_world).1 = Val b ∧
       b = false.
Proof.
  destruct (verifyDocumentIntegrity_never_throws sample_env "6e340b9c"
              saved_world) as (b & Hret & _ & _ & Hunrecorded).
  exists b. split.
  - rewrite Hret. reflexivity.
  - apply Hunrecorded; [discriminate | vm_compute; reflexivity].
Defined.

(** The empty string is the one argument for which an unrecorded hash
    passes the check: the zero record's hash is the empty string too. *)
Remark verifyDocumentIntegrity_empty_string :
  (verifyDocumentIntegrity sample_env "" saved_world).1 = Val true.
Proof. vm_compute. reflexivity. Qed.

(** ** More about the contract *)

Section ContractMore.
Import AuditTrail.

Lemma exec_keeps_owner s ctx c s' evs :
  exec s ctx c = Ok (s', evs) → owner s' = owner s.
Proof.
  destruct c as [h u | h a]; simpl;
    unfold logNewDocument, logAccess, onlyOwner; intros Hexec;
    repeat case_decide; try discriminate; by injection Hexec as <- _.
Qed.

Lemma run_keeps_owner txs : ∀ s, owner (run s txs) = owner s.
Proof.
  induction txs as [| tx txs IH]; intros s; [done |].
  unfold run in *; simpl. rewrite IH. unfold apply_tx.
  destruct (exec s tx.1 tx.2) as [[s' evs] |] eqn:Hexec; [| done].
  by eapply exec_keeps_owner.
Qed.

Lemma exec_stranger s ctx c :
  msg_sender ctx ≠ owner s →
  exec s ctx c = Revert "AuditTrail: Caller is not the owner".
Proof.
  intros Hne. destruct c; simpl; unfold logNewDocument, logAccess, onlyOwner;
    by rewrite decide_False.
Qed.

Lemma run_strangers txs : ∀ s,
  Forall (λ tx, msg_sender tx.1 ≠ owner s) txs → run s txs = s.
Proof.
  induction txs as [| tx txs IH]; intros s Hall; [done |].
  inversion Hall as [| ? ? Hne Hrest]; subst. unfold run in *; simpl.
  replace (apply_tx s tx) with s; [by apply IH |].
  unfold apply_tx. by rewrite exec_stranger.
Qed.

(** X1: from its deployment on, whatever transactions were mined, the
    owner of the contract is the deployer, and transactions sent by anyone
    else revert with the owner message and leave the storage as it is. *)
Theorem only_the_deployer_writes ctx0 txs1 txs2 :
  Forall (λ tx, msg_sender tx.1 ≠ msg_sender ctx0) txs2 →
  let s := run (constructor ctx0) txs1 in
  owner s = msg_sender ctx0 ∧
  run s txs2 = s ∧
  Forall (λ tx, exec s tx.1 tx.2 =
                Revert "AuditTrail: Caller is not the owner") txs2.
Proof.
  intros Hall s.
  assert (Hown : owner s = msg_sender ctx0) by apply run_keeps_owner.
  split; [done |]. split.
  - apply run_strangers. by rewrite Hown.
  - eapply Forall_impl; [exact Hall |]. intros tx Hne.
    apply exec_stranger. by rewrite Hown.
Qed.

Lemma exec_keeps_history_recorded s ctx c s' evs :
  (∀ h, accessHistory_at s h ≠ [] → timestamp (documentRecords_at s h) ≠ 0) →
  exec s ctx c = Ok (s', evs) →
  ∀ h, accessHistory_at s' h ≠ [] → timestamp (documentRecords_at s' h) ≠ 0.
Proof.
  intros Hinv Hexec h. destruct c as [h' u | h' a]; simpl in Hexec.
  - unfold logNewDocument, onlyOwner in Hexec.
    destruct (decide (msg_sender ctx = owner s)); [| discriminate].
    destruct (decide (timestamp (documentRecords_at s h') = 0)) as [Hzero |];
      [| discriminate].
    injection Hexec as <- _. unfold accessHistory_at, documentRecords_at.
    cbn [accessHistory documentRecords]. intros Hne.
    destruct (decide (h' = h)) as [-> | Hother].
    + by destruct (Hinv h Hne).
    + rewrite lookup_insert_ne by done. by apply Hinv.
  - unfold logAccess, onlyOwner in Hexec.
    destruct (decide (msg_sender ctx = owner s)); [| discriminate].
    destruct (decide (timestamp (documentRecords_at s h') ≠ 0)) as [Hrec |];
      [| discriminate].
    injection Hexec as <- _. unfold accessHistory_at at 1.
    unfold documentRecords_at at 1. cbn [accessHistory documentRecords].
    destruct (decide (h' = h)) as [-> | Hother]; [done |].
    rewrite lookup_insert_ne by done. apply Hinv.
Qed.

Lemma run_keeps_history_recorded txs : ∀ s,
  (∀ h, accessHistory_at s h ≠ [] → timestamp (documentRecords_at s h) ≠ 0) →
  ∀ h, accessHistory_at (run s txs) h ≠ [] →
       timestamp (documentRecords_at (run s txs) h) ≠ 0.
Proof.
  induction txs as [| tx txs IH]; intros s Hinv; [done |].
  unfold run in *; simpl. apply IH. unfold apply_tx.
  destruct (exec s tx.1 tx.2) as [[s' evs] |] eqn:Hexec; [| done].
  by eapply exec_keeps_history_recorded.
Qed.

(** X2: on a deployed contract, after any transactions, a hash without a
    creation record (timestamp 0) has an empty access history, and every
    [logAccess] for it reverts and changes nothing. *)
Theorem no_access_without_record ctx0 txs h :
  let s := run (constructor ctx0) txs in
  timestamp (getDocumentRecord s h) = 0 →
  getAccessHistory s h = [] ∧
  ∀ ctx a,
    (∃ reason, logAccess s ctx h a = Revert reason ∧
       (msg_sender ctx = owner s →
        reason = "AuditTrail: Document does not exist")) ∧
    apply_tx s (ctx, CallLogAccess h a) = s.
Proof.
  intros s Hzero. split.
  - destruct (decide (accessHistory_at s h = [])) as [| Hne]; [done |].
    exfalso. revert Hzero. by apply (run_keeps_history_recorded txs).
  - intros ctx a.
    assert (Hrev : ∃ reason, logAccess s ctx h a = Revert reason ∧
              (msg_sender ctx = owner s →
               reason = "AuditTrail: Document does not exist")).
    { unfold logAccess, onlyOwner.
      destruct (decide (msg_sender ctx = owner s)) as [Hown | Hother].
      - rewrite decide_False by (by intros []). by eexists.
      - eexists. split; [done |]. intros Hown. by destruct Hother. }
    split; [done |]. destruct Hrev as (reason & Hrev & _).
    unfold apply_tx. simpl. by rewrite Hrev.
Qed.

Lemma exec_keeps_keys s ctx c s' evs :
  (∀ h r, documentRecords s !! h = Some r → fileHash r = h) →
  exec s ctx c = Ok (s', evs) →
  ∀ h r, documentRecords s' !! h = Some r → fileHash r = h.
Proof.
  intros Hinv Hexec h r. destruct c as [h' u | h' a]; simpl in Hexec.
  - unfold logNewDocument, onlyOwner in Hexec.
    repeat case_decide; try discriminate. injection Hexec as <- _.
    cbn [documentRecords]. destruct (decide (h' = h)) as [-> | Hother].
    + rewrite lookup_insert_eq. by intros [= <-].
    + rewrite lookup_insert_ne by done. apply Hinv.
  - unfold logAccess, onlyOwner in Hexec.
    repeat case_decide; try discriminate. injection Hexec as <- _.
    apply Hinv.
Qed.

Lemma run_keeps_keys txs : ∀ s,
  (∀ h r, documentRecords s !! h = Some r → fileHash r = h) →
  ∀ h r, documentRecords (run s txs) !! h = Some r → fileHash r = h.
Proof.
  induction txs as [| tx txs IH]; intros s Hinv; [done |].
  unfold run in *; simpl. apply IH. unfold apply_tx.
  destruct (exec s tx.1 tx.2) as [[s' evs] |] eqn:Hexec; [| done].
  by eapply exec_keeps_keys.
Qed.

(** X3: on a deployed contract, after any transactions, the creation
    record read for a hash is either the zero record (nothing was ever
    written under the hash) or a record whose stored hash is that very
    hash; no record is ever stored under a hash other than its own. *)
Theorem record_hash_is_its_key ctx0 txs h :
  let s := run (constructor ctx0) txs in
  (documentRecords s !! h = None ∧ getDocumentRecord s h = zeroDocumentLog) ∨
  (documentRecords s !! h = Some (getDocumentRecord s h) ∧
   fileHash (getDocumentRecord s h) = h).
Proof.
  intros s. unfold getDocumentRecord, documentRecords_at.
  destruct (documentRecords s !! h) as [r |] eqn:Hl; [right | by left].
  split; [done |]. simpl.
  by apply (run_keeps_keys txs (constructor ctx0)) with (h := h).
Qed.

Lemma exec_other_hash s ctx c s' evs h :
  call_hash c ≠ h →
  exec s ctx c = Ok (s', evs) →
  documentRecords_at s' h = documentRecords_at s h ∧
  accessHistory_at s' h = accessHistory_at s h.
Proof.
  intros Hne Hexec. destruct c as [h' u | h' a]; simpl in *.
  - unfold logNewDocument, onlyOwner in Hexec.
    repeat case_decide; try discriminate. injection Hexec as <- _.
    unfold documentRecords_at, accessHistory_at. cbn [documentRecords accessHistory].
    by rewrite lookup_insert_ne.
  - unfold logAccess, onlyOwner in Hexec.
    destruct (decide (msg_sender ctx = owner s)); [| discriminate].
    destruct (decide (timestamp (documentRecords_at s h') ≠ 0));
      [| discriminate].
    injection Hexec as <- _. split; [done |].
    unfold accessHistory_at at 1. cbn [accessHistory].
    by rewrite lookup_insert_ne.
Qed.

(** X4: transactions about other hashes leave a hash alone: after any run
    of transactions none of which names [h], the creation record and the
    access history of [h] read as before. *)
Theorem other_hashes_do_not_interfere h txs : ∀ s,
  Forall (λ tx, call_hash tx.2 ≠ h) txs →
  getDocumentRecord (run s txs) h = getDocumentRecord s h ∧
  getAccessHistory (run s txs) h = getAccessHistory s h.
Proof.
  unfold getDocumentRecord, getAccessHistory.
  induction txs as [| tx txs IH]; intros s Hall; [done |].
  inversion Hall as [| ? ? Hne Hrest]; subst. unfold run in *; simpl.
  destruct (IH (apply_tx s tx) Hrest) as [-> ->]. unfold apply_tx.
  destruct (exec s tx.1 tx.2) as [[s' evs] |] eqn:Hexec; [| done].
  by eapply exec_other_hash.
Qed.

Lemma apply_tx_history_entry h s tx :
  accessHistory_at (apply_tx s tx) h = accessHistory_at s h ∨
  ∃ a, accessHistory_at (apply_tx s tx) h =
         accessHistory_at s h ++
         [{| accessor := a; access_timestamp := block_timestamp tx.1 |}].
Proof.
  unfold apply_tx. destruct tx as [ctx c]. cbn [fst snd].
  destruct (exec s ctx c) as [[s' evs] |] eqn:Hexec; [| by left].
  destruct (decide (call_hash c = h)) as [Hh | Hne].
  - destruct c as [h' u | h' a]; simpl in Hh, Hexec; subst h'.
    + unfold logNewDocument, onlyOwner in Hexec.
      repeat case_decide; try discriminate. injection Hexec as <- _. by left.
    + unfold logAccess, onlyOwner in Hexec.
      destruct (decide (msg_sender ctx = owner s)); [| discriminate].
      destruct (decide (timestamp (documentRecords_at s h) ≠ 0));
        [| discriminate].
      injection Hexec as <- _. right. exists a.
      unfold accessHistory_at at 1. cbn [accessHistory].
      by rewrite lookup_insert_eq.
  - left. by destruct (exec_other_hash s ctx c s' evs h Hne Hexec).
Qed.

Lemma sorted_snoc (l : list Z) x :
  Sorted Z.le l → Forall (λ y, y ≤ x) l → Sorted Z.le (l ++ [x]).
Proof.
  induction l as [| a l IH]; intros Hsorted Hall; simpl.
  - repeat constructor.
  - inversion Hsorted as [| ? ? Hl Hhd]; subst.
    inversion Hall as [| ? ? Ha Hrest]; subst.
    constructor; [by apply IH |].
    destruct l as [| b l]; simpl; constructor; [done |].
    by inversion Hhd.
Qed.

Lemma run_keeps_history_sorted h txs : ∀ s,
  Sorted Z.le (block_times txs) →
  Sorted Z.le (map access_timestamp (accessHistory_at s h)) →
  Forall (λ t, Forall (λ t', t ≤ t') (block_times txs))
    (map access_timestamp (accessHistory_at s h)) →
  Sorted Z.le (map access_timestamp (accessHistory_at (run s txs) h)).
Proof.
  induction txs as [| tx txs IH]; intros s Htimes Hsorted Hbound; [done |].
  unfold run in *; simpl. cbn [block_times map] in Htimes, Hbound.
  apply Sorted_StronglySorted in Htimes; [| intros ???; lia].
  inversion Htimes as [| ? ? Hlater Hfirst]; subst.
  apply StronglySorted_Sorted in Hlater.
  assert (Hold : Forall (λ t, Forall (λ t', t ≤ t') (block_times txs))
                   (map access_timestamp (accessHistory_at s h))).
  { eapply Forall_impl; [exact Hbound |]. intros t Ht. by inversion Ht. }
  assert (Hnow : Forall (λ t, t ≤ block_timestamp tx.1)
                   (map access_timestamp (accessHistory_at s h))).
  { eapply Forall_impl; [exact Hbound |]. intros t Ht. by inversion Ht. }
  apply IH; [done | |];
    destruct (apply_tx_history_entry h s tx) as [-> | [a ->]]; try done.
  - rewrite map_app. by apply sorted_snoc.
  - rewrite map_app. apply Forall_app. split; [done |].
    constructor; [| constructor]. exact Hfirst.
Qed.

(** X5: on a deployed contract, if the blocks of a run of transactions
    carry non-decreasing timestamps, the access history of every hash is in
    chronological order: its timestamps never decrease. *)
Theorem accessHistory_chronological ctx0 txs h :
  Sorted Z.le (block_times txs) →
  Sorted Z.le
    (map access_timestamp (getAccessHistory (run (constructor ctx0) txs) h)).
Proof.
  intros Htimes. unfold getAccessHistory.
  apply run_keeps_history_sorted; [done | |];
    unfold accessHistory_at; cbn; constructor.
Qed.

End ContractMore.

(** ** More about the sweep *)

Lemma sweep_lookup t (coll : gmap ObjectId Document) id d :
  coll !! id = Some d →
  expireSweep t coll !! id = if decide (ttl_due t d) then None else Some d.
Proof.
  intros Hl. unfold expireSweep. destruct (decide (ttl_due t d)) as [Hdue | Hdue].
  - apply map_lookup_filter_None. right. intros d0 Hl0 Hkeep.
    rewrite Hl in Hl0. injection Hl0 as <-. by apply Hkeep.
  - by apply map_lookup_filter_Some.
Qed.

Lemma expireSweep_lookup_None t (coll : gmap ObjectId Document) id :
  coll !! id = None → expireSweep t coll !! id = None.
Proof. intros Hl. apply map_lookup_filter_None. by left. Qed.

Lemma ttl_due_max t1 t2 d :
  ttl_due (Z.max t1 t2) d ↔ ttl_due t1 d ∨ ttl_due t2 d.
Proof. unfold ttl_due. destruct (expireAt d); [lia | tauto]. Qed.

(** X17: two sweeps in a row do what one sweep at the later of the two
    times does; so sweeping again at the same time removes nothing more,
    and a sweep at an earlier time after a later one removes nothing. *)
Theorem expireSweep_twice t1 t2 (coll : gmap ObjectId Document) :
  expireSweep t2 (expireSweep t1 coll) = expireSweep (Z.max t1 t2) coll ∧
  expireSweep t1 (expireSweep t1 coll) = expireSweep t1 coll.
Proof.
  assert (Hcomp : ∀ a b, expireSweep b (expireSweep a coll) =
                         expireSweep (Z.max a b) coll).
  { intros a b. apply map_eq. intros id.
    destruct (coll !! id) as [d |] eqn:Hl.
    - rewrite (sweep_lookup (Z.max a b) coll id d Hl).
      pose proof (sweep_lookup a coll id d Hl) as Hinner.
      pose proof (ttl_due_max a b d) as Hmax.
      destruct (decide (ttl_due a d)) as [Ha | Ha].
      + rewrite (expireSweep_lookup_None b _ id Hinner).
        rewrite decide_True; [done | tauto].
      + rewrite (sweep_lookup b _ id d Hinner).
        destruct (decide (ttl_due b d)) as [Hb | Hb].
        * rewrite decide_True; [done | tauto].
        * rewrite decide_False; [done | tauto].
    - rewrite !expireSweep_lookup_None; try done.
      by apply expireSweep_lookup_None. }
  split; [apply Hcomp |]. rewrite Hcomp. by rewrite Z.max_id.
Qed.

(** ** More about the service and the handlers *)

Section BackendMore.

Context (wallet_address : address)
        (sha256_hex : list Byte.byte → string)
        (iso_string : Z → string).

Local Abbreviation save := (saveAndLogDocument wallet_address).
Local Abbreviation verify := (verifyDocument sha256_hex).
Local Abbreviation access_logs := (getAccessLogs wallet_address iso_string).
Local Abbreviation upload := (uploadDocument sha256_hex).
Local Abbreviation after := (next wallet_address sha256_hex iso_string).
Local Abbreviation reachable := (reachable wallet_address sha256_hex iso_string).

(** *** The service *)

(** X6: the access write returns the transaction hash exactly when the
    node confirms the transaction, the service wallet is the contract's
    owner and the hash has a creation record; the event it emits names the
    wallet.  In every other case it throws the one error "Blockchain
    transaction failed.", whatever the cause.  When the node answers and it
    is the contract that refuses, the ledger and its events are as before;
    when the node fails, nothing is said about the ledger. *)
Theorem logDocumentAccess_outcome env h a w :
  let r := logDocumentAccess wallet_address env h a w in
  let accepts :=
    wallet_address = AuditTrail.owner (ledger w) ∧
    AuditTrail.timestamp (AuditTrail.getDocumentRecord (ledger w) h) ≠ 0 in
  (rpc_send_ok env = true ∧ accepts ∧ r.1 = Val (tx_hash env) ∧
   chain_events r.2 =
     chain_events w ++
     [AuditTrail.DocumentAccessed h wallet_address (block_time env)]) ∨
  (rpc_send_ok env = true ∧ ¬ accepts ∧
   r.1 = Exn (Error "Blockchain transaction failed.") ∧
   ledger r.2 = ledger w ∧ chain_events r.2 = chain_events w) ∨
  (rpc_send_ok env = false ∧
   r.1 = Exn (Error "Blockchain transaction failed.")).
Proof.
  cbv zeta. unfold logDocumentAccess, try_catch, send_and_wait.
  destruct (rpc_send_ok env); [| by right; right].
  cbn [AuditTrail.exec ledger log_rpc].
  unfold AuditTrail.logAccess, AuditTrail.onlyOwner.
  cbn [AuditTrail.msg_sender AuditTrail.block_timestamp].
  destruct (decide (wallet_address = AuditTrail.owner (ledger w)));
    [| right; left; split; [done | split; [by intros [? _] | done]]].
  destruct (decide (AuditTrail.timestamp
                      (AuditTrail.documentRecords_at (ledger w) h) ≠ 0));
    [by left | right; left; split; [done | split; [by intros [_ ?] | done]]].
Qed.

(** X7: the creation write returns the transaction hash exactly when the
    node confirms the transaction, the service wallet is the contract's
    owner and the hash has no creation record yet; the record then written
    names the wallet, not the user, as the one who saved.  In every other
    case the one error "Blockchain transaction failed." is thrown.  When
    the node answers and it is the contract that refuses, the ledger and its
    events are as before; when the node fails, nothing is said about the
    ledger. *)
Theorem logDocumentCreation_outcome env h a w :
  let r := logDocumentCreation wallet_address env h a w in
  let accepts :=
    wallet_address = AuditTrail.owner (ledger w) ∧
    AuditTrail.timestamp (AuditTrail.getDocumentRecord (ledger w) h) = 0 in
  (rpc_send_ok env = true ∧ accepts ∧ r.1 = Val (tx_hash env) ∧
   AuditTrail.getDocumentRecord (ledger r.2) h =
     {| AuditTrail.fileHash := h; AuditTrail.user := wallet_address;
        AuditTrail.timestamp := block_time env |}) ∨
  (rpc_send_ok env = true ∧ ¬ accepts ∧
   r.1 = Exn (Error "Blockchain transaction failed.") ∧
   ledger r.2 = ledger w ∧ chain_events r.2 = chain_events w) ∨
  (rpc_send_ok env = false ∧
   r.1 = Exn (Error "Blockchain transaction failed.")).
Proof.
  cbv zeta. unfold logDocumentCreation, try_catch, send_and_wait.
  destruct (rpc_send_ok env); [| by right; right].
  cbn [AuditTrail.exec ledger log_rpc].
  destruct (AuditTrail.logNewDocument _ _ _ _) as [[s' evs] | reason] eqn:Hcall.
  - left. pose proof (logNewDocument_stores _ _ _ _ _ _ Hcall) as Hstored.
    unfold AuditTrail.logNewDocument, AuditTrail.onlyOwner in Hcall.
    cbn [AuditTrail.msg_sender] in Hcall.
    repeat case_decide; try discriminate. done.
  - right; left. split; [done |]. split; [| done]. intros (Hown & Hzero).
    unfold AuditTrail.logNewDocument, AuditTrail.onlyOwner in Hcall.
    cbn [AuditTrail.msg_sender] in Hcall.
    by rewrite !decide_True in Hcall.
Qed.

(** X8: the history read never throws and changes nothing on the ledger.
    What it returns is all or nothing: either one entry per on-chain
    record, in the same order and with the same accessors, or the empty
    list; it is empty when the read fails and as soon as one record has a
    timestamp that is no valid date. *)
Theorem getDocumentAccessHistory_all_or_nothing env h w :
  let onchain := AuditTrail.getAccessHistory (ledger w) h in
  ∃ history,
    getDocumentAccessHistory iso_string env h w =
      (Val history, log_rpc (RpcGetAccessHistory h) w) ∧
    (history = [] ∨
     (length history = length onchain ∧
      map entry_accessor history = map AuditTrail.accessor onchain)) ∧
    (rpc_read_ok env = false → history = []) ∧
    (∀ log, log ∈ onchain →
       8640000000000000 < AuditTrail.access_timestamp log * 1000 →
       history = []).
Proof.
  cbv zeta. rewrite getDocumentAccessHistory_total. eexists. split; [done |].
  split; [| split].
  - destruct (rpc_read_ok env && forallb in_date_range _); [right | by left].
    rewrite length_map. split; [done |].
    rewrite <- list_fmap_compose. done.
  - by intros ->.
  - intros log Hin Hbig.
    destruct (forallb in_date_range _) eqn:Hall; [| by rewrite andb_false_r].
    rewrite forallb_forall in Hall. apply list_elem_of_In in Hin.
    specialize (Hall log Hin). unfold in_date_range in Hall.
    apply bool_decide_eq_true in Hall. lia.
Qed.

(** X9: against a deployed contract, after any transactions, the
    integrity check of a non-empty hash answers [true] exactly when the
    node answers and something was recorded under the hash. *)
Theorem verifyDocumentIntegrity_on_deployed env h w ctx0 txs :
  ledger w = AuditTrail.run (AuditTrail.constructor ctx0) txs →
  h ≠ "" →
  verifyDocumentIntegrity env h w =
    (Val (rpc_read_ok env &&
          bool_decide (is_Some (AuditTrail.documentRecords (ledger w) !! h))),
     log_rpc (RpcGetDocumentRecord h) w).
Proof.
  intros Hledger Hne. rewrite verifyDocumentIntegrity_total. do 3 f_equal.
  unfold AuditTrail.getDocumentRecord, AuditTrail.documentRecords_at.
  destruct (AuditTrail.documentRecords (ledger w) !! h) as [r |] eqn:Hl.
  - rewrite Hledger in Hl.
    apply (run_keeps_keys txs (AuditTrail.constructor ctx0)) in Hl; [| done].
    apply bool_decide_ext. split; intros _; [by eexists | exact Hl].
  - apply bool_decide_ext. split.
    + intros Hempty. cbn in Hempty. congruence.
    + by intros [? ?].
Qed.

(** *** Upload, download, delete *)

Lemma findOne_none env id uid w :
  stored id uid w = None → findOne env id uid w = None.
Proof. unfold findOne. by intros ->. Qed.

Lemma findOne_some env id uid w d :
  stored id uid w = Some d → findOne env id uid w = Some (hydrate (now env) d).
Proof. unfold findOne. by intros ->. Qed.

Lemma stored_insert id uid d (w : World) :
  stored id uid (set_documents (insert id d) w) =
    if decide (user d = uid) then Some d else None.
Proof.
  unfold stored. cbn [set_documents documents]. by rewrite lookup_insert_eq.
Qed.

Lemma upload_cases env u file w :
  match (upload env u file w).1 with
  | Responded code body =>
      ∃ f, file = Some f ∧ code = 201 ∧
        body = UploadBody (new_id env) (originalname f) (now env) ∧
        originalname f ≠ "" ∧ buffer f ≠ [] ∧
        documents w !! new_id env = None ∧
        (upload env u file w).2 =
          set_documents (insert (new_id env) (uploaded sha256_hex env u f)) w
  | Failed code e => (upload env u file w).2 = w
  end.
Proof.
  unfold uploadDocument, Document_create. destruct file as [f |]; [| done].
  case_decide as Hvalid; [done |].
  destruct (documents w !! new_id env) eqn:Hfree; [done |].
  cbn [fst snd]. exists f. repeat split; try done; intros He; apply Hvalid; auto.
Qed.

(** X10: an upload either stores exactly one new document, under the
    fresh id, belonging to the uploader, uncommitted, with the SHA-256 of
    the bytes as its hash, and answers 201; or it fails and stores nothing.
    It fails with status 400 when no file was sent, and with mongoose's
    validation error, which names the failing paths, when a required path
    is empty: for an empty file with a name, the path [originalFile]. *)
Theorem upload_outcome env u file w :
  match (upload env u file w).1 with
  | Responded code body =>
      ∃ f, file = Some f ∧ code = 201 ∧
        body = UploadBody (new_id env) (originalname f) (now env) ∧
        documents w !! new_id env = None ∧
        (upload env u file w).2 =
          set_documents (insert (new_id env) (uploaded sha256_hex env u f)) w
  | Failed code e => (upload env u file w).2 = w
  end ∧
  (file = None →
   (upload env u file w).1 = Failed 400 (Error "Please select a file")) ∧
  (∀ f, file = Some f →
     required_failures (originalname f) (buffer f) (sha256_hex (buffer f)) ≠ [] →
     (upload env u file w).1 =
       Failed 200
         (ValidationError
            (validation_message
               (required_failures (originalname f) (buffer f)
                  (sha256_hex (buffer f)))))) ∧
  (∀ f, file = Some f →
     buffer f = [] → originalname f ≠ "" → sha256_hex [] ≠ "" →
     (upload env u file w).1 =
       Failed 200
         (ValidationError
            "Document validation failed: originalFile: Path `originalFile` is required.")).
Proof.
  split; [| split; [| split]].
  - pose proof (upload_cases env u file w) as Hcases.
    destruct (upload env u file w).1; [| done].
    destruct Hcases as (f & ? & ? & ? & _ & _ & ? & ?). by exists f.
  - by intros ->.
  - intros f -> Hfail. unfold uploadDocument, Document_create.
    case_decide as Hvalid; [done |]. destruct Hfail.
    unfold required_failures.
    rewrite !decide_False; [done | | |]; intros He; apply Hvalid; auto.
  - intros f -> Hempty Hname Hhash. unfold uploadDocument, Document_create.
    rewrite decide_True by auto. unfold required_failures. rewrite Hempty.
    rewrite (decide_False (P := originalname f = "")) by done.
    rewrite (decide_True (P := @nil Byte.byte = [])) by done.
    by rewrite decide_False by done.
Qed.

(** X11: what was uploaded comes back: after a successful upload, a
    download of the new id by the uploader sends the uploaded bytes as an
    attachment named after the file (the name being one the header
    accepts), and a download by any other user is answered 404; neither
    changes anything. *)
Theorem upload_then_download env env' u f w code body :
  (upload env u (Some f) w).1 = Responded code body →
  valid_header_value
    (String.append "attachment; filename=" (originalname f)) = true →
  let w' := (upload env u (Some f) w).2 in
  downloadOriginalFile env' u (new_id env) w' =
    (FileSent 200 (String.append "attachment; filename=" (originalname f))
       (buffer f), w') ∧
  ∀ u', _id u' ≠ _id u →
    downloadOriginalFile env' u' (new_id env) w' =
      (FileFailed 404 (Error "Document not found"), w').
Proof.
  intros Hok Hname w'. pose proof (upload_cases env u (Some f) w) as Hcases.
  rewrite Hok in Hcases. destruct Hcases as (f' & [= <-] & _ & _ & _ & _ & _ & Hw).
  subst w'. rewrite Hw. unfold downloadOriginalFile. split.
  - rewrite (findOne_some env' _ _ _ (uploaded sha256_hex env u f)).
    + cbn [hydrate uploaded filename originalFile]. by rewrite Hname.
    + rewrite stored_insert. by rewrite decide_True.
  - intros u' Hother. rewrite findOne_none; [done |].
    rewrite stored_insert. rewrite decide_False; [done |].
    cbn [uploaded user]. congruence.
Qed.

(** X12: a request for a document that does not exist or belongs to
    somebody else is refused, 404 or 400 by the handler, and nothing at all
    changes: no document, no ledger call. *)
Theorem foreign_user_is_refused env u id w :
  stored id (_id u) w = None →
  deleteDocument env u id w =
    (Failed 404 (Error "Document not found or user not authorized"), w) ∧
  detectPii env u id w = (Failed 404 (Error "Document not found"), w) ∧
  save env u id w = (Failed 404 (Error "Document not found."), w) ∧
  verify env u id w =
    (Failed 400 (Error "Document not found or was not saved."), w) ∧
  access_logs env u id w =
    (Failed 400 (Error "Document not found or was not saved."), w) ∧
  downloadOriginalFile env u id w =
    (FileFailed 404 (Error "Document not found"), w).
Proof.
  intros Hnone.
  unfold deleteDocument, detectPii, saveAndLogDocument, verifyDocument,
    getAccessLogs, downloadOriginalFile.
  by rewrite (findOne_none env id (_id u) w Hnone).
Qed.

(** X13: a delete by the owner removes the document and nothing else: the
    other documents, the ledger and its events stay, and no ledger call is
    made.  Afterwards the id matches for nobody, and a verification of it is
    refused, while the ledger still holds what was recorded for the hash. *)
Theorem delete_is_final env u id d w :
  stored id (_id u) w = Some d →
  let w' := (deleteDocument env u id w).2 in
  (deleteDocument env u id w).1 =
    Responded 200 (MessageBody "Document removed successfully") ∧
  documents w' = delete id (documents w) ∧
  ledger w' = ledger w ∧ chain_events w' = chain_events w ∧
  rpc_log w' = rpc_log w ∧
  (∀ u', stored id (_id u') w' = None) ∧
  (∀ env' u', verify env' u' id w' =
     (Failed 400 (Error "Document not found or was not saved."), w')) ∧
  AuditTrail.getDocumentRecord (ledger w') (originalFileHash d) =
    AuditTrail.getDocumentRecord (ledger w) (originalFileHash d) ∧
  AuditTrail.getAccessHistory (ledger w') (originalFileHash d) =
    AuditTrail.getAccessHistory (ledger w) (originalFileHash d).
Proof.
  intros Hfind w'. subst w'. unfold deleteDocument.
  rewrite (findOne_some env _ _ _ _ Hfind). cbn [fst snd].
  assert (Hgone : ∀ u', stored id (_id u') (findByIdAndDelete id w) = None).
  { intros u'. unfold stored, findByIdAndDelete. cbn [set_documents documents].
    by rewrite lookup_delete_eq. }
  repeat split; try done.
  intros env' u'. unfold verifyDocument.
  by rewrite (findOne_none env' _ _ _ (Hgone u')).
Qed.

(** X14: verification and the access log of an uncommitted document are
    refused with status 400 before any ledger call: nothing is read from
    and nothing is written to the ledger. *)
Theorem uncommitted_needs_no_ledger env u id d w :
  stored id (_id u) w = Some d →
  isSaved d = false →
  verify env u id w =
    (Failed 400 (Error "Document not found or was not saved."), w) ∧
  access_logs env u id w =
    (Failed 400 (Error "Document not found or was not saved."), w).
Proof.
  intros Hfind Hunsaved. unfold verifyDocument, getAccessLogs.
  rewrite (findOne_some env _ _ _ _ Hfind). cbn [hydrate isSaved].
  by rewrite Hunsaved.
Qed.

(** X15: a PII detection changes the detected entities and nothing else
    about the content: bytes, hash, owner, commit flag and transaction id
    stay, every other document stays, the ledger is not called.  On an
    uncommitted document the expiry time stays too: detecting does not buy
    time.  When the PII service fails nothing is stored. *)
Theorem detect_outcome env u id d w :
  stored id (_id u) w = Some d →
  (pii_entities env = None → detectPii env u id w = (Failed 200 NetworkError, w)) ∧
  (∀ entities, pii_entities env = Some entities →
     let w' := (detectPii env u id w).2 in
     (detectPii env u id w).1 = Responded 200 (DetectBody entities) ∧
     ledger w' = ledger w ∧ rpc_log w' = rpc_log w ∧
     (∀ id', id' ≠ id → documents w' !! id' = documents w !! id') ∧
     ∃ d', documents w' !! id = Some d' ∧
       detectedPii d' = entities ∧
       originalFile d' = originalFile d ∧
       originalFileHash d' = originalFileHash d ∧
       user d' = user d ∧ isSaved d' = isSaved d ∧
       blockchainTransactionId d' = blockchainTransactionId d ∧
       (isSaved d = false → expireAt d ≠ None → expireAt d' = expireAt d)).
Proof.
  intros Hfind. unfold detectPii. rewrite (findOne_some env _ _ _ _ Hfind).
  split; [by intros -> |]. intros entities ->.
  cbn [fst snd Document_save set_documents documents ledger rpc_log].
  repeat split; try done.
  - intros id' Hne. by rewrite lookup_insert_ne.
  - eexists. rewrite lookup_insert_eq. split; [done |].
    cbn [hydrate detectedPii originalFile originalFileHash user isSaved
         blockchainTransactionId expireAt].
    repeat split; try done. intros _ Hset. by destruct (expireAt d).
Qed.

(** X16: no request of one user changes, replaces or removes a document
    of another user. *)
Theorem requests_leave_others_documents env r w id d :
  documents w !! id = Some d →
  user d ≠ _id (requester r) →
  documents (handle wallet_address sha256_hex iso_string env r w).2 !! id =
    Some d.
Proof.
  intros Hl Hother.
  assert (Hmine : ∀ id0 d0, stored id0 (_id (requester r)) w = Some d0 → id0 ≠ id).
  { intros id0 d0 Hfind ->. apply stored_lookup in Hfind as [Hl0 Hu].
    rewrite Hl in Hl0. injection Hl0 as <-. done. }
  destruct r as [u f | u id0 | u id0 | u id0 | u id0 | u id0];
    cbn [handle requester] in *.
  - pose proof (upload_cases env u f w) as Hcases.
    destruct (upload env u f w) as [[code body | code e] w'];
      cbn [fst snd] in *; [| by subst].
    destruct Hcases as (f' & _ & _ & _ & _ & _ & Hfree & ->).
    cbn [set_documents documents]. rewrite lookup_insert_ne; [done |].
    intros <-. by rewrite Hl in Hfree.
  - unfold deleteDocument, findOne.
    destruct (stored id0 (_id u) w) as [d0 |] eqn:Hfind; [| done].
    cbn [fmap option_fmap option_map snd findByIdAndDelete set_documents
         documents].
    rewrite lookup_delete_ne; [done |]. by eapply Hmine.
  - unfold detectPii, findOne.
    destruct (stored id0 (_id u) w) as [d0 |] eqn:Hfind; [| done].
    cbn [fmap option_fmap option_map].
    destruct (pii_entities env); [| done].
    cbn [snd Document_save set_documents documents].
    rewrite lookup_insert_ne; [done |]. by eapply Hmine.
  - pose proof (save_cases wallet_address env u id0 w) as Hsave.
    destruct (stored id0 (_id u) w) as [d0 |] eqn:Hfind; [| by rewrite Hsave].
    destruct (isSaved d0); [by rewrite Hsave |].
    destruct (ledger_write_confirmed _ env _ w); [| by rewrite Hsave].
    destruct Hsave as (s' & evs & _ & ->).
    cbn [snd set_documents set_ledger log_rpc documents].
    rewrite lookup_insert_ne; [done |]. by eapply Hmine.
  - by rewrite verify_keeps_documents.
  - by rewrite access_logs_keeps_documents.
Qed.

(** *** Expiry after upload and commit *)

(** X18: an uploaded document that nobody touches lives for exactly five
    minutes: a sweep before that leaves it, a sweep at or after that time
    removes it. *)
Theorem upload_grace_period env u f w code body t :
  (upload env u (Some f) w).1 = Responded code body →
  expireSweep t (documents (upload env u (Some f) w).2) !! new_id env =
    if decide (now env + 300000 <= t) then None
    else Some (uploaded sha256_hex env u f).
Proof.
  intros Hok. pose proof (upload_cases env u (Some f) w) as Hcases.
  rewrite Hok in Hcases.
  destruct Hcases as (f' & [= <-] & _ & _ & _ & _ & _ & ->).
  rewrite (sweep_lookup t _ _ (uploaded sha256_hex env u f));
    [| cbn [set_documents documents]; by rewrite lookup_insert_eq].
  unfold ttl_due. cbn [uploaded expireAt]. unfold expireAt_default.
  repeat case_decide; try done; lia.
Qed.

(** X19: a confirmed commit takes the document off the timer: right after
    it, no sweep, at whatever time, removes the document. *)
Theorem commit_cancels_timer env u id d w t :
  stored id (_id u) w = Some d →
  isSaved d = false →
  ledger_write_confirmed wallet_address env (originalFileHash d) w = true →
  expireSweep t (documents (save env u id w).2) !! id =
    Some (committed env d).
Proof.
  intros Hfind Hunsaved Hledger.
  pose proof (save_cases wallet_address env u id w) as Hsave.
  rewrite Hfind, Hunsaved, Hledger in Hsave.
  destruct Hsave as (s' & evs & _ & ->).
  rewrite (sweep_lookup t _ id (committed env d));
    [| cbn [snd set_documents documents]; by rewrite lookup_insert_eq].
  destruct (decide (ttl_due t (committed env d))) as [Hdue |]; [| done].
  by unfold ttl_due in Hdue.
Qed.

(** *** What holds in every reachable state *)

Lemma next_lookup_full l w id d' :
  documents (after l w) !! id = Some d' →
  documents w !! id = Some d'
  ∨ (∃ env u f, l = LRequest env (Upload u (Some f)) ∧
       documents w !! id = None ∧ originalname f ≠ "" ∧ buffer f ≠ [] ∧
       d' = uploaded sha256_hex env u f)
  ∨ (∃ env u d entities, l = LRequest env (Detect u id) ∧
       stored id (_id u) w = Some d ∧ d' = detected env entities d)
  ∨ (∃ env u d s' evs, l = LRequest env (Save u id) ∧
       stored id (_id u) w = Some d ∧ isSaved d = false ∧
       creation_write wallet_address env (originalFileHash d) w =
         AuditTrail.Ok (s', evs) ∧
       ledger (after l w) = s' ∧ d' = committed env d).
Proof.
  destruct l as [env [u f | u id0 | u id0 | u id0 | u id0 | u id0] | t | tx];
    cbn [next handle].
  - pose proof (upload_cases env u f w) as Hcases.
    destruct (upload env u f w) as [[code body | code e] w'];
      cbn [fst snd] in *; [| subst; by left].
    destruct Hcases as (f' & -> & _ & _ & Hname & Hbytes & Hfree & ->).
    cbn [set_documents documents].
    destruct (decide (new_id env = id)) as [<- | Hne].
    + rewrite lookup_insert_eq. intros [= <-].
      right; left. by exists env, u, f'.
    + rewrite lookup_insert_ne by done. by left.
  - unfold deleteDocument.
    destruct (findOne env id0 (_id u) w); [| by left].
    cbn [snd findByIdAndDelete set_documents documents].
    intros [_ Hl]%lookup_delete_Some. by left.
  - unfold detectPii, findOne.
    destruct (stored id0 (_id u) w) as [d |] eqn:Hfind; [| by left].
    cbn [fmap option_fmap option_map].
    destruct (pii_entities env) as [entities |]; [| by left].
    cbn [snd Document_save set_documents documents].
    destruct (decide (id0 = id)) as [-> | Hne].
    + rewrite lookup_insert_eq. intros [= <-].
      right; right; left. by exists env, u, d, entities.
    + rewrite lookup_insert_ne by done. by left.
  - pose proof (save_cases wallet_address env u id0 w) as Hsave.
    destruct (stored id0 (_id u) w) as [d |] eqn:Hfind;
      [| rewrite Hsave; by left].
    destruct (isSaved d) eqn:Hsaved; [rewrite Hsave; by left |].
    destruct (ledger_write_confirmed _ env _ w) eqn:Hledger;
      [| rewrite Hsave; by left].
    destruct Hsave as (s' & evs & Hwrite & ->).
    cbn [snd set_documents set_ledger log_rpc documents ledger].
    destruct (decide (id0 = id)) as [-> | Hne].
    + rewrite lookup_insert_eq. intros [= <-].
      right; right; right. by exists env, u, d, s', evs.
    + rewrite lookup_insert_ne by done. by left.
  - rewrite verify_keeps_documents. by left.
  - rewrite access_logs_keeps_documents. by left.
  - cbn [set_documents documents]. unfold expireSweep.
    intros [Hl _]%map_lookup_filter_Some. by left.
  - unfold foreign_tx.
    destruct (AuditTrail.exec _ _ _) as [[s' evs] | reason]; by left.
Qed.

Lemma reachable_document_facts w :
  reachable w →
  ∀ id d, documents w !! id = Some d →
    originalFileHash d = sha256_hex (originalFile d) ∧
    originalFile d ≠ [] ∧ filename d ≠ "" ∧
    (isSaved d = true ↔ blockchainTransactionId d ≠ None) ∧
    accessLogs d = [].
Proof.
  intros (w0 & Hinit & Hsteps). revert w Hsteps.
  apply (rtc_ind_r (λ w, ∀ id d, documents w !! id = Some d →
           originalFileHash d = sha256_hex (originalFile d) ∧
           originalFile d ≠ [] ∧ filename d ≠ "" ∧
           (isSaved d = true ↔ blockchainTransactionId d ≠ None) ∧
           accessLogs d = [])).
  - intros id d. by rewrite Hinit.
  - intros w1 w2 _ [l ->] IH id d' Hl.
    apply next_lookup_full in Hl
      as [Hl | [(env & u & f & _ & _ & Hname & Hbytes & ->)
         | [(env & u & d & entities & _ & Hfind & ->)
         | (env & u & d & s' & evs & _ & Hfind & Hunsaved & _ & _ & ->)]]].
    + by eapply IH.
    + cbn [uploaded originalFileHash originalFile filename isSaved
           blockchainTransactionId accessLogs].
      repeat split; done.
    + apply stored_lookup in Hfind as [Hl _]. apply IH in Hl. exact Hl.
    + apply stored_lookup in Hfind as [Hl _].
      destruct (IH _ _ Hl) as (? & ? & ? & _ & ?).
      cbn [committed originalFileHash originalFile filename isSaved
           blockchainTransactionId accessLogs].
      repeat split; done.
Qed.

(** X20: in every reachable state every stored document has the SHA-256
    of its stored bytes as its stored hash, a non-empty name and non-empty
    bytes: no handler ever writes bytes or hash after the upload. *)
Theorem stored_hash_matches_bytes w id d :
  reachable w →
  documents w !! id = Some d →
  originalFileHash d = sha256_hex (originalFile d) ∧
  originalFile d ≠ [] ∧ filename d ≠ "".
Proof.
  intros Hreach Hl.
  destruct (reachable_document_facts w Hreach id d Hl) as (? & ? & ? & _).
  done.
Qed.

(** X21: in every reachable state a document is committed exactly when
    it carries a transaction id, and its [accessLogs] array is empty: no
    handler ever writes that path. *)
Theorem commit_flag_and_transaction_id w id d :
  reachable w →
  documents w !! id = Some d →
  (isSaved d = true ↔ blockchainTransactionId d ≠ None) ∧
  accessLogs d = [].
Proof.
  intros Hreach Hl.
  destruct (reachable_document_facts w Hreach id d Hl) as (_ & _ & _ & ? & ?).
  done.
Qed.

(** *** Commit, once *)




(** *** The ledger along the steps *)

Lemma exec_keeps_hash_key s ctx c s' evs h :
  AuditTrail.fileHash (AuditTrail.documentRecords_at s h) = h →
  AuditTrail.exec s ctx c = AuditTrail.Ok (s', evs) →
  AuditTrail.fileHash (AuditTrail.documentRecords_at s' h) = h.
Proof.
  intros Hkey Hexec. destruct (decide (call_hash c = h)) as [Hh | Hne].
  - destruct c as [h' u | h' a]; simpl in Hh, Hexec; subst h'.
    + by rewrite (logNewDocument_stores _ _ _ _ _ _ Hexec).
    + unfold AuditTrail.logAccess, AuditTrail.onlyOwner in Hexec.
      repeat case_decide; try discriminate. by injection Hexec as <- _.
  - by destruct (exec_other_hash s ctx c s' evs h Hne Hexec) as [-> _].
Qed.

Lemma exec_history_prefix s ctx c s' evs h :
  AuditTrail.exec s ctx c = AuditTrail.Ok (s', evs) →
  AuditTrail.accessHistory_at s h `prefix_of` AuditTrail.accessHistory_at s' h.
Proof.
  intros Hexec. pose proof (apply_tx_history_entry h s (ctx, c)) as Hentry.
  unfold AuditTrail.apply_tx in Hentry. cbn [fst snd] in Hentry.
  rewrite Hexec in Hentry. destruct Hentry as [-> | [a ->]]; [done |].
  by eexists.
Qed.

(** The ledger after a step is the ledger before, or what one accepted
    contract call made of it. *)
Lemma next_ledger l w :
  ledger (after l w) = ledger w ∨
  ∃ ctx c s' evs,
    AuditTrail.exec (ledger w) ctx c = AuditTrail.Ok (s', evs) ∧
    ledger (after l w) = s'.
Proof.
  destruct l as [env [u f | u id | u id | u id | u id | u id] | t | tx];
    cbn [next handle].
  - pose proof (upload_cases env u f w) as Hcases.
    destruct (upload env u f w) as [[code body | code e] w'];
      cbn [fst snd] in *; [| subst; by left].
    destruct Hcases as (f' & _ & _ & _ & _ & _ & _ & ->). by left.
  - unfold deleteDocument. destruct (findOne env id (_id u) w); by left.
  - unfold detectPii. destruct (findOne env id (_id u) w); [| by left].
    destruct (pii_entities env); by left.
  - pose proof (save_cases wallet_address env u id w) as Hsave.
    destruct (stored id (_id u) w) as [d |]; [| rewrite Hsave; by left].
    destruct (isSaved d); [rewrite Hsave; by left |].
    destruct (ledger_write_confirmed _ env _ w); [| rewrite Hsave; by left].
    destruct Hsave as (s' & evs & Hwrite & ->). right.
    by exists {| AuditTrail.msg_sender := wallet_address;
                 AuditTrail.block_timestamp := block_time env |},
              (AuditTrail.CallLogNewDocument (originalFileHash d) wallet_address),
              s', evs.
  - unfold verifyDocument. destruct (findOne env id (_id u) w) as [d |];
      [| by left].
    destruct (isSaved d); [| by left]. cbn [negb].
    case_decide; [by left |]. rewrite verifyDocumentIntegrity_total. by left.
  - unfold getAccessLogs. destruct (findOne env id (_id u) w) as [d |];
      [| by left].
    destruct (isSaved d); [| by left]. cbn [negb].
    unfold logDocumentAccess, try_catch, send_and_wait.
    destruct (rpc_send_ok env); [| by left]. cbn [ledger log_rpc].
    destruct (AuditTrail.exec _ _ _) as [[s' evs] | reason] eqn:Hexec;
      [| by left].
    rewrite getDocumentAccessHistory_total. right. by eexists _, _, s', evs.
  - by left.
  - unfold foreign_tx.
    destruct (AuditTrail.exec _ _ _) as [[s' evs] | reason] eqn:Hexec;
      [right | by left].
    by eexists _, _, s', evs.
Qed.

Lemma reachable_committed_on_ledger w :
  reachable w →
  ∀ id d, documents w !! id = Some d → isSaved d = true →
    AuditTrail.fileHash
      (AuditTrail.documentRecords_at (ledger w) (originalFileHash d)) =
      originalFileHash d.
Proof.
  intros (w0 & Hinit & Hsteps). revert w Hsteps.
  apply (rtc_ind_r (λ w, ∀ id d, documents w !! id = Some d →
           isSaved d = true →
           AuditTrail.fileHash
             (AuditTrail.documentRecords_at (ledger w) (originalFileHash d)) =
             originalFileHash d)).
  - intros id d. by rewrite Hinit.
  - intros w1 w2 _ [l ->] IH id d' Hl Hsaved.
    assert (Hkeep : ∀ h,
      AuditTrail.fileHash (AuditTrail.documentRecords_at (ledger w1) h) = h →
      AuditTrail.fileHash
        (AuditTrail.documentRecords_at (ledger (after l w1)) h) = h).
    { intros h Hkey.
      destruct (next_ledger l w1) as [-> | (ctx & c & s' & evs & Hexec & ->)];
        [done |].
      by eapply exec_keeps_hash_key. }
    apply next_lookup_full in Hl
      as [Hl | [(env & u & f & _ & _ & _ & _ & ->)
         | [(env & u & d & entities & _ & Hfind & ->)
         | (env & u & d & s' & evs & _ & _ & _ & Hwrite & -> & ->)]]].
    + apply Hkeep. by eapply IH.
    + done.
    + apply stored_lookup in Hfind as [Hl _].
      cbn [detected originalFileHash isSaved] in *. apply Hkeep. by eapply IH.
    + cbn [committed originalFileHash].
      by rewrite (logNewDocument_stores _ _ _ _ _ _ Hwrite).
Qed.

(** X22: in every reachable state the verification of a committed
    document never reports local tampering and never a ledger mismatch
    while the node answers: the verdict is "verified" exactly when the
    ledger read succeeds.  (Only a write to the database or a change of
    contract behind the application's back gives another verdict.) *)
Theorem verify_on_reachable env u id d w :
  reachable w →
  stored id (_id u) w = Some d →
  isSaved d = true →
  verify env u id w =
    (Responded 200
       (VerifyBody (rpc_read_ok env)
          (if rpc_read_ok env
           then "Document integrity verified successfully against the blockchain."
           else "Verification Failed: The hash on the blockchain does not match.")
          (originalFileHash d) (originalFileHash d)),
     log_rpc (RpcGetDocumentRecord (originalFileHash d)) w).
Proof.
  intros Hreach Hfind Hsaved.
  pose proof Hfind as Hl. apply stored_lookup in Hl as [Hl _].
  destruct (reachable_document_facts w Hreach id d Hl) as (Hhash & _).
  pose proof (reachable_committed_on_ledger w Hreach id d Hl Hsaved) as Hkey.
  rewrite (verify_untampered sha256_hex env u id d w Hfind Hsaved);
    [| done].
  cbv zeta. unfold AuditTrail.getDocumentRecord.
  rewrite (bool_decide_eq_true_2 _ Hkey). by rewrite andb_true_r.
Qed.

(** X23: whatever happens, requests of any kind, deletions, sweeps,
    other people's transactions, the ledger only grows: along any sequence
    of steps the access history of every hash is extended at its end, and a
    creation record with a non-zero timestamp reads the same ever after. *)
Theorem ledger_never_shrinks w w' h :
  rtc (step wallet_address sha256_hex iso_string) w w' →
  AuditTrail.getAccessHistory (ledger w) h
    `prefix_of` AuditTrail.getAccessHistory (ledger w') h ∧
  (AuditTrail.timestamp (AuditTrail.getDocumentRecord (ledger w) h) ≠ 0 →
   AuditTrail.getDocumentRecord (ledger w') h =
     AuditTrail.getDocumentRecord (ledger w) h).
Proof.
  unfold AuditTrail.getAccessHistory, AuditTrail.getDocumentRecord.
  revert w'. apply (rtc_ind_r (λ w', _ ∧ (_ → _))); [done |].
  intros w1 w2 _ [l ->] [IHhist IHrec].
  destruct (next_ledger l w1) as [-> | (ctx & c & s' & evs & Hexec & ->)];
    [done |].
  split.
  - etrans; [exact IHhist |]. by eapply exec_history_prefix.
  - intros Hrec. rewrite <- (IHrec Hrec).
    eapply exec_keeps_record; [| exact Hexec]. by rewrite (IHrec Hrec).
Qed.

(** X24: when the access write fails, the access-log request ends with
    that error and the history is not read: the one ledger call made is the
    refused transaction. *)
Theorem access_log_stops_at_failed_write env u id d w :
  stored id (_id u) w = Some d →
  isSaved d = true →
  (logDocumentAccess wallet_address env (originalFileHash d)
     (user_address u) w).1 ≠ Val (tx_hash env) →
  access_logs env u id w =
    (Failed 200 (Error "Blockchain transaction failed."),
     log_rpc (RpcTransaction
                (AuditTrail.CallLogAccess (originalFileHash d) wallet_address))
       w).
Proof.
  intros Hfind Hsaved Hfail. unfold getAccessLogs.
  rewrite (findOne_some env _ _ _ _ Hfind).
  cbn [hydrate isSaved originalFileHash]. rewrite Hsaved. cbn [negb].
  revert Hfail. unfold logDocumentAccess, try_catch, send_and_wait.
  destruct (rpc_send_ok env); [| done]. cbn [ledger log_rpc].
  by destruct (AuditTrail.exec _ _ _) as [[s' evs] | reason].
Qed.

End BackendMore.

(** ** The redaction choice of the dashboard *)

Lemma filter_absent_label (l : list string) label :
  label ∉ l → filter (λ x, x ≠ label) l = l.
Proof.
  induction l as [| x l IH]; intros Hnot; [done |].
  apply not_elem_of_cons in Hnot as [Hne Hrest].
  rewrite filter_cons_True by congruence. by rewrite IH.
Qed.

(** X25: ticking a label toggles it and nothing else: afterwards the
    label is chosen exactly when it was not before, every other label is
    chosen as before, no label is listed twice, and the number of chosen
    labels goes up or down by one; ticking it twice gives the original
    choice back, up to the order of listing. *)
Theorem handlePiiSelectionChange_toggles (piiToRedact : list string) label :
  NoDup piiToRedact →
  let chosen := handlePiiSelectionChange piiToRedact label in
  NoDup chosen ∧
  (label ∈ chosen ↔ label ∉ piiToRedact) ∧
  (∀ other, other ≠ label → other ∈ chosen ↔ other ∈ piiToRedact) ∧
  length chosen =
    (if bool_decide (label ∈ piiToRedact)
     then length piiToRedact - 1 else length piiToRedact + 1)%nat ∧
  handlePiiSelectionChange chosen label ≡ₚ piiToRedact.
Proof.
  intros Hnodup chosen. subst chosen. unfold handlePiiSelectionChange at 1 2 3 4.
  case_bool_decide as Hin.
  - assert (Hperm : piiToRedact ≡ₚ
                    label :: filter (λ x, x ≠ label) piiToRedact).
    { apply NoDup_Permutation; [done | |].
      - constructor; [| by apply NoDup_filter].
        rewrite list_elem_of_filter. by intros [? _].
      - intros x. rewrite elem_of_cons, list_elem_of_filter.
        destruct (decide (x = label)) as [-> | Hne]; naive_solver. }
    split; [by apply NoDup_filter |].
    split; [rewrite list_elem_of_filter; naive_solver |].
    split; [intros other Hne; rewrite list_elem_of_filter; naive_solver |].
    split; [apply Permutation_length in Hperm; simpl in Hperm; lia |].
    unfold handlePiiSelectionChange. rewrite (bool_decide_eq_true_2 _ Hin).
    rewrite bool_decide_eq_false_2
      by (rewrite list_elem_of_filter; by intros [? _]).
    symmetry. etrans; [exact Hperm |]. apply Permutation_cons_append.
  - split.
    { apply NoDup_app. repeat split; [done | | apply NoDup_singleton].
      intros x Hx ->%list_elem_of_singleton. done. }
    split; [set_solver |].
    split; [intros other Hne; set_solver |].
    split; [rewrite length_app; simpl; lia |].
    unfold handlePiiSelectionChange. rewrite (bool_decide_eq_false_2 _ Hin).
    rewrite bool_decide_eq_true_2 by set_solver.
    rewrite filter_app.
    replace (filter (λ x, x ≠ label) [label]) with (@nil string).
    + rewrite app_nil_r. by rewrite filter_absent_label.
    + rewrite filter_cons_False; [done | by intros []].
Qed.

(** ** The further properties at the sample data *)


(** Once the document is gone, a commit call finds nothing.  In the sample
    run (upload, commit, detect, then a sweep after the re-armed expiry) the
    committed document is reaped, and the commit call that follows is
    answered 404. *)
Remark commit_after_reaping :
  documents reaped_world !! 5%N = None ∧
  handle sample_wallet sample_sha256 sample_iso later_env (Save alice 5%N)
      reaped_world =
    (Failed 404 (Error "Document not found."), reaped_world).
Proof. split; vm_compute; reflexivity. Qed.

Lemma only_the_deployer_writes_witness :
  AuditTrail.run (AuditTrail.run fresh_ledger owner_txs) stranger_txs =
    AuditTrail.run fresh_ledger owner_txs.
Proof.
  refine (proj1 (proj2 (only_the_deployer_writes
                          {| AuditTrail.msg_sender := sample_wallet;
                             AuditTrail.block_timestamp := 1600000000 |}
                          owner_txs stranger_txs _))).
  repeat constructor; discriminate.
Defined.

Lemma no_access_without_record_witness :
  AuditTrail.getAccessHistory (AuditTrail.run fresh_ledger owner_txs) "bbbb" = [].
Proof.
  refine (proj1 (no_access_without_record
                   {| AuditTrail.msg_sender := sample_wallet;
                      AuditTrail.block_timestamp := 1600000000 |}
                   owner_txs "bbbb" _)).
  vm_compute. reflexivity.
Defined.

Lemma other_hashes_do_not_interfere_witness :
  AuditTrail.getAccessHistory (AuditTrail.run fresh_ledger owner_txs) "cccc" =
    AuditTrail.getAccessHistory fresh_ledger "cccc".
Proof.
  refine (proj2 (other_hashes_do_not_interfere "cccc" owner_txs fresh_ledger _)).
  repeat constructor; discriminate.
Defined.

Lemma accessHistory_chronological_witness :
  Sorted Z.le
    (map AuditTrail.access_timestamp
       (AuditTrail.getAccessHistory (AuditTrail.run fresh_ledger owner_txs)
          "aaaa")).
Proof.
  refine (accessHistory_chronological
            {| AuditTrail.msg_sender := sample_wallet;
               AuditTrail.block_timestamp := 1600000000 |}
            owner_txs "aaaa" _).
  unfold block_times, owner_txs. simpl. repeat constructor; lia.
Defined.

Lemma verifyDocumentIntegrity_on_deployed_witness :
  verifyDocumentIntegrity later_env "ffffffff" saved_world =
    (Val true, log_rpc (RpcGetDocumentRecord "ffffffff") saved_world).
Proof.
  refine (verifyDocumentIntegrity_on_deployed later_env "ffffffff" saved_world
            {| AuditTrail.msg_sender := sample_wallet;
               AuditTrail.block_timestamp := 1600000000 |}
            [({| AuditTrail.msg_sender := sample_wallet;
                 AuditTrail.block_timestamp := 1700000000 |},
              AuditTrail.CallLogNewDocument "ffffffff" sample_wallet)] _ _).
  - vm_compute. reflexivity.
  - discriminate.
Defined.

Lemma upload_outcome_witness :
  (uploadDocument sample_sha256 sample_env alice (Some empty_file)
     empty_world).1 =
    Failed 200
      (ValidationError
         "Document validation failed: originalFile: Path `originalFile` is required.").
Proof.
  refine (proj2 (proj2 (proj2
            (upload_outcome sample_sha256 sample_env alice (Some empty_file)
               empty_world))) empty_file eq_refl eq_refl _ _);
    discriminate.
Defined.

Lemma upload_then_download_witness :
  downloadOriginalFile later_env alice 5%N uploaded_world =
    (FileSent 200 "attachment; filename=report.pdf" [Byte.x01; Byte.x02],
     uploaded_world).
Proof.
  assert (Hok : (uploadDocument sample_sha256 sample_env alice
                   (Some sample_file) empty_world).1 =
                Responded 201 (UploadBody 5%N "report.pdf" 1000))
    by (vm_compute; reflexivity).
  assert (Hname : valid_header_value
                    (String.append "attachment; filename="
                       (originalname sample_file)) = true)
    by (vm_compute; reflexivity).
  exact (proj1 (upload_then_download sample_sha256 sample_env later_env alice
                  sample_file empty_world _ _ Hok Hname)).
Defined.

Lemma foreign_user_is_refused_witness :
  saveAndLogDocument sample_wallet sample_env bob 5%N uploaded_world =
    (Failed 404 (Error "Document not found."), uploaded_world).
Proof.
  assert (Hnone : stored 5%N (_id bob) uploaded_world = None)
    by (vm_compute; reflexivity).
  exact (proj1 (proj2 (proj2 (foreign_user_is_refused sample_wallet
                                sample_sha256 sample_iso sample_env bob 5%N
                                uploaded_world Hnone)))).
Defined.

Lemma delete_is_final_witness :
  (deleteDocument sample_env alice 5%N saved_world).1 =
    Responded 200 (MessageBody "Document removed successfully") ∧
  ledger (deleteDocument sample_env alice 5%N saved_world).2 =
    ledger saved_world.
Proof.
  assert (Hfind : stored 5%N (_id alice) saved_world =
                  Some (committed sample_env sample_document))
    by (vm_compute; reflexivity).
  destruct (delete_is_final sample_sha256 sample_env alice 5%N _ saved_world
              Hfind) as (Hout & _ & Hledger & _).
  split; [exact Hout | exact Hledger].
Defined.

Lemma uncommitted_needs_no_ledger_witness :
  verifyDocument sample_sha256 sample_env alice 5%N uploaded_world =
    (Failed 400 (Error "Document not found or was not saved."), uploaded_world).
Proof.
  assert (Hfind : stored 5%N (_id alice) uploaded_world = Some sample_document)
    by (vm_compute; reflexivity).
  exact (proj1 (uncommitted_needs_no_ledger sample_wallet sample_sha256
                  sample_iso sample_env alice 5%N sample_document
                  uploaded_world Hfind eq_refl)).
Defined.

Lemma detect_outcome_witness :
  (detectPii later_env alice 5%N uploaded_world).1 =
    Responded 200 (DetectBody ["EMAIL"]).
Proof.
  assert (Hfind : stored 5%N (_id alice) uploaded_world = Some sample_document)
    by (vm_compute; reflexivity).
  destruct (detect_outcome later_env alice 5%N sample_document uploaded_world
              Hfind) as [_ Hanswered].
  exact (proj1 (Hanswered ["EMAIL"] eq_refl)).
Defined.

Lemma requests_leave_others_documents_witness :
  documents
    (handle sample_wallet sample_sha256 sample_iso sample_env
       (Delete bob 5%N) uploaded_world).2 !! 5%N = Some sample_document.
Proof.
  assert (Hl : documents uploaded_world !! 5%N = Some sample_document)
    by (vm_compute; reflexivity).
  refine (requests_leave_others_documents sample_wallet sample_sha256
            sample_iso sample_env (Delete bob 5%N) uploaded_world 5%N
            sample_document Hl _).
  vm_compute. discriminate.
Defined.

Lemma upload_grace_period_witness :
  expireSweep 2000 (documents uploaded_world) !! 5%N =
    Some (uploaded sample_sha256 sample_env alice sample_file).
Proof.
  assert (Hok : (uploadDocument sample_sha256 sample_env alice
                   (Some sample_file) empty_world).1 =
                Responded 201 (UploadBody 5%N "report.pdf" 1000))
    by (vm_compute; reflexivity).
  exact (upload_grace_period sample_sha256 sample_env alice sample_file
           empty_world _ _ 2000 Hok).
Defined.

Lemma commit_cancels_timer_witness :
  expireSweep 999999999 (documents saved_world) !! 5%N =
    Some (committed sample_env sample_document).
Proof.
  assert (Hfind : stored 5%N (_id alice) uploaded_world = Some sample_document)
    by (vm_compute; reflexivity).
  assert (Hledger : ledger_write_confirmed sample_wallet sample_env
                      (originalFileHash sample_document) uploaded_world = true)
    by (vm_compute; reflexivity).
  exact (commit_cancels_timer sample_wallet sample_env alice 5%N
           sample_document uploaded_world 999999999 Hfind eq_refl Hledger).
Defined.

Lemma stored_hash_matches_bytes_witness :
  originalFileHash (committed sample_env sample_document) =
    sample_sha256 (originalFile (committed sample_env sample_document)).
Proof.
  assert (Hreach : reachable sample_wallet sample_sha256 sample_iso saved_world)
    by sample_steps 2.
  assert (Hl : documents saved_world !! 5%N =
               Some (committed sample_env sample_document))
    by (vm_compute; reflexivity).
  exact (proj1 (stored_hash_matches_bytes sample_wallet sample_sha256
                  sample_iso saved_world 5%N _ Hreach Hl)).
Defined.

Lemma commit_flag_and_transaction_id_witness :
  accessLogs (committed sample_env sample_document) = [].
Proof.
  assert (Hreach : reachable sample_wallet sample_sha256 sample_iso saved_world)
    by sample_steps 2.
  assert (Hl : documents saved_world !! 5%N =
               Some (committed sample_env sample_document))
    by (vm_compute; reflexivity).
  exact (proj2 (commit_flag_and_transaction_id sample_wallet sample_sha256
                  sample_iso saved_world 5%N _ Hreach Hl)).
Defined.

Lemma verify_on_reachable_witness :
  (verifyDocument sample_sha256 later_env alice 5%N saved_world).1 =
    Responded 200
      (VerifyBody true
         "Document integrity verified successfully against the blockchain."
         "ffffffff" "ffffffff").
Proof.
  assert (Hreach : reachable sample_wallet sample_sha256 sample_iso saved_world)
    by sample_steps 2.
  assert (Hfind : stored 5%N (_id alice) saved_world =
                  Some (committed sample_env sample_document))
    by (vm_compute; reflexivity).
  rewrite (verify_on_reachable sample_wallet sample_sha256 sample_iso later_env
             alice 5%N _ saved_world Hreach Hfind eq_refl).
  reflexivity.
Defined.

Lemma ledger_never_shrinks_witness :
  AuditTrail.getDocumentRecord (ledger redetected_world) "ffffffff" =
    AuditTrail.getDocumentRecord (ledger saved_world) "ffffffff".
Proof.
  assert (Hsteps : rtc (step sample_wallet sample_sha256 sample_iso)
                     saved_world redetected_world)
    by (eapply rtc_r; [apply rtc_refl | eexists; reflexivity]).
  refine (proj2 (ledger_never_shrinks sample_wallet sample_sha256 sample_iso
                   saved_world redetected_world "ffffffff" Hsteps) _).
  vm_compute. discriminate.
Defined.

Lemma access_log_stops_at_failed_write_witness :
  getAccessLogs sample_wallet sample_iso offline_env alice 5%N saved_world =
    (Failed 200 (Error "Blockchain transaction failed."),
     log_rpc (RpcTransaction (AuditTrail.CallLogAccess "ffffffff" sample_wallet))
       saved_world).
Proof.
  assert (Hfind : stored 5%N (_id alice) saved_world =
                  Some (committed sample_env sample_document))
    by (vm_compute; reflexivity).
  refine (access_log_stops_at_failed_write sample_wallet sample_iso offline_env
            alice 5%N _ saved_world Hfind eq_refl _).
  vm_compute. discriminate.
Defined.

Lemma handlePiiSelectionChange_toggles_witness :
  handlePiiSelectionChange
    (handlePiiSelectionChange ["NAME"; "EMAIL"] "NAME") "NAME"
    ≡ₚ ["NAME"; "EMAIL"].
Proof.
  refine (proj2 (proj2 (proj2 (proj2 (handlePiiSelectionChange_toggles
                                        ["NAME"; "EMAIL"] "NAME" _))))).
  apply (bool_decide_unpack (NoDup ["NAME"; "EMAIL"])). vm_compute. exact I.
Defined.
